(** * aws-clients-typescript: the S3Bucket and SqsQueue facades

    A shallow embedding of [src/clients/s3-bucket.ts], [src/clients/sqs-queue.ts]
    and the two exception classes, and the properties of their upload strategy,
    their compound queue operations and their error wrapping.

    The facades are [async] methods around an AWS SDK client.  An [async]
    method is modelled by the state its promise settles to, computed from the
    world it starts in: the external service behind the SDK client, the list of
    commands handed to [client.send] so far (what [mockClient.calls()] shows in
    the tests) and the lines given to the logger. *)

From Stdlib Require Import String Ascii List NArith ZArith Bool Lia.
Import ListNotations.

Open Scope string_scope.
Open Scope list_scope.

Set Implicit Arguments.

(** ** Thrown values *)

(** The error objects the facades see.  [Error_] stands for every error object
    that is none of the repository's two classes ([new Error(msg)], an SDK
    service exception, ...), by its [name] and [message].  The two exception
    classes carry [message] and the optional [cause] of their constructor
    ([constructor(message: string, public readonly cause?: Error)]).  An object
    is represented by the tree it was built as: re-raising the caught object is
    raising the same tree, and wrapping it builds a strictly larger one. *)
#[warnings="-register-all"]
Inductive JsError : Type :=
| Error_ (name message : string)
| S3BucketException (message : string) (cause : option JsError)
| SqsQueueException (message : string) (cause : option JsError).

(** [this.name = this.constructor.name] in both exception classes. *)
Definition error_name (e : JsError) : string :=
  match e with
  | Error_ name _ => name
  | S3BucketException _ _ => "S3BucketException"
  | SqsQueueException _ _ => "SqsQueueException"
  end.

Definition error_message (e : JsError) : string :=
  match e with
  | Error_ _ message => message
  | S3BucketException message _ => message
  | SqsQueueException message _ => message
  end.

Definition error_cause (e : JsError) : option JsError :=
  match e with
  | Error_ _ _ => None
  | S3BucketException _ cause => cause
  | SqsQueueException _ cause => cause
  end.

Definition is_empty (s : string) : bool :=
  match s with EmptyString => true | String _ _ => false end.

(** [`${error}`]: Error.prototype.toString, which the template literals of the
    log lines call. *)
Definition Error_toString (e : JsError) : string :=
  if is_empty (error_name e) then error_message e
  else if is_empty (error_message e) then error_name e
  else (error_name e ++ ": " ++ error_message e)%string.

(** [error instanceof SqsQueueException] *)
Definition instanceof_SqsQueueException (e : JsError) : bool :=
  match e with SqsQueueException _ _ => true | _ => false end.

(** [error instanceof S3BucketException] *)
Definition instanceof_S3BucketException (e : JsError) : bool :=
  match e with S3BucketException _ _ => true | _ => false end.

(** How a piece of code completes: normally with a value, or by a throw. *)
Inductive Completion (A : Type) : Type :=
| Normal (value : A)
| Throw (reason : JsError).
Arguments Normal {A} value.
Arguments Throw {A} reason.

(** A promise, by the state it settles to: [Normal v] is fulfilled with [v],
    [Throw e] is rejected with [e]. *)
Definition Promise (A : Type) : Type := Completion A.

(** ** The logger *)

Inductive Level : Type := error | warn | info | debug.

Record LogEntry : Type := { level : Level; line : string }.

Definition is_error_entry (l : LogEntry) : bool :=
  match level l with error => true | _ => false end.

Definition is_warn_entry (l : LogEntry) : bool :=
  match level l with warn => true | _ => false end.

(** ** The world an operation runs in, and the monad of the facades *)

Section Effects.

Variables Env Cmd : Type.

(** [env]: the state of whatever is behind the SDK (service, mock, helpers);
    [calls]: the commands given to [client.send], oldest first;
    [logged]: the logger's lines, oldest first. *)
Record World : Type := { env : Env; calls : list Cmd; logged : list LogEntry }.

Definition M (A : Type) : Type := World -> Completion A * World.

Definition ret {A} (a : A) : M A := fun w => (Normal a, w).

Definition bind {A B} (m : M A) (k : A -> M B) : M B :=
  fun w => match m w with
           | (Normal a, w') => k a w'
           | (Throw e, w') => (Throw e, w')
           end.

(** [throw e] *)
Definition throw {A} (e : JsError) : M A := fun w => (Throw e, w).

(** [try { body } catch (error) { handler }] *)
Definition try_catch {A} (body : M A) (handler : JsError -> M A) : M A :=
  fun w => match body w with
           | (Normal a, w') => (Normal a, w')
           | (Throw e, w') => handler e w'
           end.

(** [await p]: the value of a fulfilled promise, a throw of the reason of a
    rejected one, at the place of the [await]. *)
Definition await {A} (call : M (Promise A)) : M A :=
  bind call (fun p => match p with Normal v => ret v | Throw e => throw e end).

(** [return p] in an [async] function: the function's own promise adopts the
    state of the promise it returned, after the function body is over. *)
Definition adopt {A} (p : Promise A) : M A :=
  match p with Normal v => ret v | Throw e => throw e end.

Definition log (lv : Level) (text : string) : M unit :=
  fun w => (Normal tt,
            {| env := env w; calls := calls w;
               logged := logged w ++ [{| level := lv; line := text |}] |}).

(** [logger.error(text)] and [logger.warn(text)] *)
Definition logger_error (text : string) : M unit := log error text.
Definition logger_warn (text : string) : M unit := log warn text.

(** [client.send(command)]: the command is recorded, the service answers with
    a promise that is already fulfilled or rejected. *)
Definition client_send {Out} (service : Cmd -> Env -> Promise Out * Env)
    (command : Cmd) : M (Promise Out) :=
  fun w => let (p, env') := service command (env w) in
           (Normal p, {| env := env'; calls := calls w ++ [command]; logged := logged w |}).

(** A call of an imported helper that is no [client.send]: it may throw at the
    call, or return. *)
Definition helper_call {A} (helper : Env -> Completion A * Env) : M A :=
  fun w => let (c, env') := helper (env w) in
           (c, {| env := env'; calls := calls w; logged := logged w |}).

End Effects.

Arguments ret {Env Cmd A} a.
Arguments throw {Env Cmd A} e.
Arguments logger_error {Env Cmd} text.
Arguments logger_warn {Env Cmd} text.
Arguments adopt {Env Cmd A} p.
Arguments helper_call {Env Cmd A} helper.

Declare Scope js_scope.
Delimit Scope js_scope with js.
Notation "x <- m ;; k" := (bind m (fun x => k))
  (at level 61, m at next level, right associativity) : js_scope.
Notation "m ;; k" := (bind m (fun _ => k))
  (at level 61, right associativity) : js_scope.

(** [x || d] on a value that is an array or [undefined]: every array is truthy,
    the empty one too, so only [undefined] gives [d]. *)
Definition or_else {A} (x : option A) (d : A) : A :=
  match x with Some v => v | None => d end.

(** A parameter with a default value ([prefix = ''], [maxKeys = 1000], ...):
    the default stands for an argument left out. *)
Definition default_arg {A} (d : A) (arg : option A) : A :=
  match arg with Some v => v | None => d end.

(** [s.split(sep)] for a separator of one character. *)
Fixpoint String_split (sep : ascii) (s : string) : list string :=
  match s with
  | EmptyString => [EmptyString]
  | String c rest =>
      if Ascii.eqb c sep then EmptyString :: String_split sep rest
      else match String_split sep rest with
           | segment :: segments => String c segment :: segments
           | [] => [String c EmptyString]
           end
  end.

(** ** src/clients/sqs-queue.ts *)

Module SqsQueue.

(** [Message] of @aws-sdk/client-sqs, every field optional; the fields the
    facade reads or the tests set. *)
Record Message : Type :=
  { MessageId : option string; ReceiptHandle : option string; Body : option string }.

(** The input of each command class the facade builds; a field the object
    literal leaves out is [None]. *)
Inductive Command : Type :=
| SendMessageCommand (QueueUrl : string) (MessageBody : option string) (DelaySeconds : option Z)
| DeleteMessageCommand (QueueUrl : string) (ReceiptHandle : option string)
| ReceiveMessageCommand (QueueUrl : string) (MaxNumberOfMessages : Z) (WaitTimeSeconds : Z).

(** The response object of [sqsClient.send]. *)
Record Output : Type := { Messages : option (list Message) }.

(** [new SQSClient({ region })] *)
Record SQSClient : Type := { region : option string }.

Record t : Type :=
  { sqsClient : SQSClient; queueUrl : string; deadLetterQueueUrl : string }.

(** [constructor(queueUrl, deadLetterQueueUrl)] *)
Definition new (queueUrl deadLetterQueueUrl : string) : t :=
  {| sqsClient := {| region := nth_error (String_split "." queueUrl) 1 |};
     queueUrl := queueUrl;
     deadLetterQueueUrl := deadLetterQueueUrl |}.

Section Operations.

Variable Env : Type.
(** [SQSClient.prototype.send], of the SDK. *)
Variable SQSClient_send : SQSClient -> Command -> Env -> Promise Output * Env.
Variable this : t.

Local Open Scope js_scope.

Definition send (command : Command) : M Env Command (Promise Output) :=
  client_send (SQSClient_send (sqsClient this)) command.

Definition sendMessage (messageBody : string) : M Env Command unit :=
  try_catch
    (let command := SendMessageCommand (queueUrl this) (Some messageBody) None in
     _ <- await (send command) ;;
     ret tt)
    (fun error =>
       logger_error ("Failed to send message to SQS queue: " ++ Error_toString error) ;;
       throw (SqsQueueException "Failed to send message" (Some error))).

Definition deleteMessage (message : Message) : M Env Command unit :=
  try_catch
    (let command := DeleteMessageCommand (queueUrl this) (ReceiptHandle message) in
     _ <- await (send command) ;;
     ret tt)
    (fun error =>
       logger_error ("Failed to delete message from SQS queue: " ++ Error_toString error) ;;
       throw (SqsQueueException "Failed to delete message" (Some error))).

Definition receiveMessage (maxNumberOfMessages : option Z) : M Env Command (list Message) :=
  let maxNumberOfMessages := default_arg 10%Z maxNumberOfMessages in
  try_catch
    (let command := ReceiveMessageCommand (queueUrl this) maxNumberOfMessages 20 in
     response <- await (send command) ;;
     ret (or_else (Messages response) []))
    (fun error =>
       logger_error ("Failed to receive message from SQS queue: " ++ Error_toString error) ;;
       throw (SqsQueueException "Failed to receive message" (Some error))).

(** The [catch] block of [sendMessageToDlq]. *)
Definition sendMessageToDlq_catch (error : JsError) : M Env Command unit :=
  if instanceof_SqsQueueException error then
    logger_warn "Failed to send message to DLQ while deleting message from original queue" ;;
    throw error
  else
    logger_error ("Failed to send message to SQS DLQ: " ++ Error_toString error) ;;
    throw (SqsQueueException "Failed to send message to DLQ" (Some error)).

Definition sendMessageToDlq (message : Message) : M Env Command unit :=
  try_catch
    (deleteMessage message ;;
     let command := SendMessageCommand (deadLetterQueueUrl this) (Body message) None in
     _ <- await (send command) ;;
     ret tt)
    sendMessageToDlq_catch.

(** The [catch] block of [rescheduleMessage]. *)
Definition rescheduleMessage_catch (error : JsError) : M Env Command unit :=
  if instanceof_SqsQueueException error then
    logger_warn "Failed to reschedule message while deleting message from queue" ;;
    throw error
  else
    logger_error ("Failed to reschedule message: " ++ Error_toString error) ;;
    throw (SqsQueueException "Failed to reschedule message" (Some error)).

Definition rescheduleMessage (message : Message) : M Env Command unit :=
  try_catch
    (deleteMessage message ;;
     let command := SendMessageCommand (queueUrl this) (Body message) (Some 30%Z) in
     _ <- await (send command) ;;
     ret tt)
    rescheduleMessage_catch.

End Operations.

End SqsQueue.

(** ** src/clients/s3-bucket.ts *)

Module S3Bucket.

(** A Node [Buffer]: its length in bytes and the byte at each offset. *)
Record Buffer : Type := { byteLength : N; byteAt : N -> ascii }.

(** [Buffer.alloc(size, fill)] with a fill of one byte. *)
Definition Buffer_alloc (size : N) (fill : ascii) : Buffer :=
  {| byteLength := size; byteAt := fun _ => fill |}.

(** [Buffer.from(s)], the string taken as its bytes. *)
Definition Buffer_from (s : string) : Buffer :=
  {| byteLength := N.of_nat (String.length s);
     byteAt := fun i => match String.get (N.to_nat i) s with Some c => c | None => zero end |}.

(** [buf.slice(start, end)] for offsets that are not negative: a view of the
    bytes from [start] up to [end], both cut at the length of [buf]. *)
Definition Buffer_slice (buf : Buffer) (startByte endByte : N) : Buffer :=
  let startByte := N.min startByte (byteLength buf) in
  let endByte := N.min endByte (byteLength buf) in
  {| byteLength := endByte - startByte;
     byteAt := fun i => byteAt buf (startByte + i) |}.

Definition Buffer_append (a b : Buffer) : Buffer :=
  {| byteLength := byteLength a + byteLength b;
     byteAt := fun i => if (i <? byteLength a)%N then byteAt a i
                        else byteAt b (i - byteLength a) |}.

(** [Buffer.concat(chunks)] *)
Definition Buffer_concat (chunks : list Buffer) : Buffer :=
  fold_right Buffer_append (Buffer_alloc 0 zero) chunks.

(** A [Readable], by the chunks it delivers before it ends. *)
Definition Readable : Type := list Buffer.

(** [body: string | Buffer | Readable] *)
Inductive UploadSource : Type :=
| BodyString (s : string)
| BodyBuffer (b : Buffer)
| BodyReadable (r : Readable).

(** [_Object] of @aws-sdk/client-s3: the fields the tests set. *)
Record _Object : Type := { Key : option string; Size : option Z }.

(** [{ ETag, PartNumber }], an entry of a completion call's part list. *)
Record CompletedPart : Type := { ETag : option string; PartNumber : N }.

(** The input of each command class given to [s3Client.send] or to
    [getSignedUrl]; a field the object literal leaves out is [None]. *)
Inductive Command : Type :=
| ListObjectsV2Command (Bucket : string) (Prefix : string) (MaxKeys : Z)
| HeadObjectCommand (Bucket Key : string)
| PutObjectCommand (Bucket Key : string) (Body : option Buffer)
| GetObjectCommand (Bucket Key : string)
| DeleteObjectCommand (Bucket Key : string)
| CreateMultipartUploadCommand (Bucket Key : string)
| UploadPartCommand (Bucket Key : string) (UploadId : option string) (PartNumber : N) (Body : Buffer)
| CompleteMultipartUploadCommand (Bucket Key : string) (UploadId : option string)
    (Parts : list CompletedPart).

(** The response object of [s3Client.send]: the fields the facade or the upload
    helper read, [ResponseBody] and [ResponseETag] for its [Body] and [ETag];
    a field the response lacks is [None] (the mock's [{}] is all [None]). *)
Record Output : Type :=
  { Contents : option (list _Object);
    ResponseBody : option Readable;
    UploadId : option string;
    ResponseETag : option string }.

(** [new S3Client({ region })] *)
Record S3Client : Type := { region : string }.

Record t : Type := { s3Client : S3Client; bucketName : string }.

(** [constructor(region, bucketName)] *)
Definition new (region bucketName : string) : t :=
  {| s3Client := {| region := region |}; bucketName := bucketName |}.

(** [new Upload({ client, params: { Bucket, Key, Body }, partSize })] *)
Record Upload : Type :=
  { client : S3Client;
    params_Bucket : string;
    params_Key : string;
    params_Body : UploadSource;
    partSize : N }.

(** A part of a payload on its way to an upload call. *)
Record DataPart : Type := { partNumber : N; data : Buffer }.

Section Operations.

Variable Env : Type.
(** [S3Client.prototype.send], of the SDK. *)
Variable S3Client_send : S3Client -> Command -> Env -> Promise Output * Env.
(** [getSignedUrl(client, command, { expiresIn })] of
    @aws-sdk/s3-request-presigner: it throws at the call, or returns a promise
    of the URL. *)
Variable getSignedUrl : S3Client -> Command -> Z -> Env -> Completion (Promise string) * Env.
Variable this : t.

Local Open Scope js_scope.

Definition send (c : S3Client) (command : Command) : M Env Command (Promise Output) :=
  client_send (S3Client_send c) command.

(** *** The upload helper *)

(** Modelled from the spec: the payload of an upload source, whose size the
    [Upload] helper of @aws-sdk/lib-storage classifies (the helper is imported,
    its code is not part of the repository's sources): the byte length of a
    buffer or of a string, and for a stream what it delivers as it is read. *)
Definition payload_of (body : UploadSource) : Buffer :=
  match body with
  | BodyString s => Buffer_from s
  | BodyBuffer b => b
  | BodyReadable r => Buffer_concat r
  end.

(** Modelled from the spec: the split of a payload into parts of the fixed
    part size, the last one possibly smaller, numbered upwards, inside the
    [Upload] helper of @aws-sdk/lib-storage (imported, not in the sources).
    The loop cuts a full part as long as more than one part size is left; it
    runs at most [bound] times, and [split_payload] gives it the bound
    [byteLength / partSize], after which at most one part size is left. *)
Fixpoint split_from (bound : nat) (payload : Buffer) (partSize partNumber startByte : N)
    : list DataPart :=
  let lastPart := {| partNumber := partNumber;
                     data := Buffer_slice payload startByte (byteLength payload) |} in
  match bound with
  | O => [lastPart]
  | S bound' =>
      if (startByte + partSize <? byteLength payload)%N then
        {| partNumber := partNumber;
           data := Buffer_slice payload startByte (startByte + partSize) |}
        :: split_from bound' payload partSize (partNumber + 1) (startByte + partSize)
      else [lastPart]
  end.

(** Modelled from the spec: see [split_from]; part numbers start at 1. *)
Definition split_payload (payload : Buffer) (partSize : N) : list DataPart :=
  split_from (N.to_nat (byteLength payload / partSize)) payload partSize 1 0.

(** Modelled from the spec: step (2) of the multipart sequence of the [Upload]
    helper of @aws-sdk/lib-storage (imported, not in the sources): each part is
    uploaded with its part number, and the identifier each upload returns is
    kept, in order, for the completion call. *)
Fixpoint upload_parts (u : Upload) (uploadId : option string) (parts : list DataPart)
    : M Env Command (list CompletedPart) :=
  match parts with
  | [] => ret []
  | part :: rest =>
      response <- await (send (client u)
                    (UploadPartCommand (params_Bucket u) (params_Key u) uploadId
                       (partNumber part) (data part))) ;;
      completed <- upload_parts u uploadId rest ;;
      ret ({| ETag := ResponseETag response; PartNumber := partNumber part |} :: completed)
  end.

(** Modelled from the spec: [upload.done()] of the [Upload] helper of
    @aws-sdk/lib-storage (imported, not in the sources).  A payload larger than
    the part size is large: the helper initiates a multipart session on the
    key, uploads the parts, and completes the session with the ordered list of
    what the part uploads returned.  Any other payload goes in one put.  A
    failure at any stage ends the operation with that failure. *)
Definition Upload_done (u : Upload) : M Env Command unit :=
  let payload := payload_of (params_Body u) in
  if (partSize u <? byteLength payload)%N then
    session <- await (send (client u)
                 (CreateMultipartUploadCommand (params_Bucket u) (params_Key u))) ;;
    completed <- upload_parts u (UploadId session) (split_payload payload (partSize u)) ;;
    _ <- await (send (client u)
           (CompleteMultipartUploadCommand (params_Bucket u) (params_Key u)
              (UploadId session) completed)) ;;
    ret tt
  else
    _ <- await (send (client u)
           (PutObjectCommand (params_Bucket u) (params_Key u) (Some payload))) ;;
    ret tt.

(** *** The facade *)

Definition listObjects (prefix : option string) (maxKeys : option Z)
    : M Env Command (list _Object) :=
  let prefix := default_arg EmptyString prefix in
  let maxKeys := default_arg 1000%Z maxKeys in
  try_catch
    (let command := ListObjectsV2Command (bucketName this) prefix maxKeys in
     response <- await (send (s3Client this) command) ;;
     ret (or_else (Contents response) []))
    (fun error =>
       logger_error ("Failed to list objects in S3: " ++ Error_toString error) ;;
       throw (S3BucketException "Failed to list objects in S3" (Some error))).

Definition headObject (key : string) : M Env Command Output :=
  try_catch
    (let command := HeadObjectCommand (bucketName this) key in
     await (send (s3Client this) command))
    (fun error =>
       logger_error ("Failed to head object from S3: " ++ Error_toString error) ;;
       throw (S3BucketException "Failed to head object from S3" (Some error))).

Definition uploadObject (key : string) (body : UploadSource) : M Env Command unit :=
  try_catch
    (let upload := {| client := s3Client this;
                      params_Bucket := bucketName this;
                      params_Key := key;
                      params_Body := body;
                      partSize := 1024 * 1024 * 100 |} in
     Upload_done upload)
    (fun error =>
       logger_error ("Failed to upload object to S3: " ++ Error_toString error) ;;
       throw (S3BucketException "Failed to upload object to S3" (Some error))).

Definition downloadObject (key : string) : M Env Command (option Readable) :=
  try_catch
    (let command := GetObjectCommand (bucketName this) key in
     response <- await (send (s3Client this) command) ;;
     ret (ResponseBody response))
    (fun error =>
       logger_error ("Failed to download object from S3: " ++ Error_toString error) ;;
       throw (S3BucketException "Failed to download object from S3" (Some error))).

Definition deleteObject (key : string) : M Env Command unit :=
  try_catch
    (let command := DeleteObjectCommand (bucketName this) key in
     _ <- await (send (s3Client this) command) ;;
     ret tt)
    (fun error =>
       logger_error ("Failed to delete object from S3: " ++ Error_toString error) ;;
       throw (S3BucketException "Failed to delete object from S3" (Some error))).

(** The [try] block returns the promise of [getSignedUrl] without an [await]:
    the [catch] block guards the call, and the promise is adopted after it. *)
Definition getPreSignedUrlDownload (key : string) (expiresIn : option Z)
    : M Env Command string :=
  let expiresIn := default_arg 900%Z expiresIn in
  returned <- try_catch
    (let command := GetObjectCommand (bucketName this) key in
     helper_call (getSignedUrl (s3Client this) command expiresIn))
    (fun error =>
       logger_error ("Failed to get pre-signed url for download: " ++ Error_toString error) ;;
       throw (S3BucketException "Failed to get pre-signed url for download" (Some error))) ;;
  adopt returned.

Definition getPreSignedUrlForUpload (key : string) (expiresIn : option Z)
    : M Env Command string :=
  let expiresIn := default_arg 900%Z expiresIn in
  returned <- try_catch
    (let command := PutObjectCommand (bucketName this) key None in
     helper_call (getSignedUrl (s3Client this) command expiresIn))
    (fun error =>
       logger_error ("Failed to get pre-signed url for upload: " ++ Error_toString error) ;;
       throw (S3BucketException "Failed to get pre-signed url for upload" (Some error))) ;;
  adopt returned.

End Operations.

End S3Bucket.

(** * Properties *)

(** ** Thrown values *)

(** The number of wrappers around an error object. *)
Fixpoint error_depth (e : JsError) : nat :=
  match e with
  | Error_ _ _ => 0
  | S3BucketException _ (Some c) => S (error_depth c)
  | S3BucketException _ None => 0
  | SqsQueueException _ (Some c) => S (error_depth c)
  | SqsQueueException _ None => 0
  end.

(** A wrapper is never the object it wraps. *)
Lemma SqsQueueException_fresh (message : string) (e : JsError) :
  SqsQueueException message (Some e) <> e.
Proof.
  intro H. apply (f_equal error_depth) in H. simpl in H. lia.
Qed.

Lemma S3BucketException_fresh (message : string) (e : JsError) :
  S3BucketException message (Some e) <> e.
Proof.
  intro H. apply (f_equal error_depth) in H. simpl in H. lia.
Qed.

(** ** [String.prototype.split] *)

(** The text of [s] before its first [sep], all of [s] when it has none. *)
Fixpoint up_to (sep : ascii) (s : string) : string :=
  match s with
  | EmptyString => EmptyString
  | String c rest => if Ascii.eqb c sep then EmptyString else String c (up_to sep rest)
  end.

(** The text of [s] after its first [sep], if it has one. *)
Fixpoint after_first (sep : ascii) (s : string) : option string :=
  match s with
  | EmptyString => None
  | String c rest => if Ascii.eqb c sep then Some rest else after_first sep rest
  end.

(** In the spec's words: the second dot-delimited segment of a URL, the text
    between its first dot and the next one (or the end); none when the URL has
    no dot. *)
Definition spec_second_dot_segment (url : string) : option string :=
  option_map (up_to ".") (after_first "." url).

Lemma String_split_cons (sep : ascii) (s : string) :
  String_split sep s = up_to sep s ::
    match after_first sep s with
    | Some rest => String_split sep rest
    | None => []
    end.
Proof.
  induction s as [|c rest IH]; simpl.
  - reflexivity.
  - destruct (Ascii.eqb c sep).
    + reflexivity.
    + rewrite IH. reflexivity.
Qed.

Lemma String_split_index_1 (sep : ascii) (s : string) :
  nth_error (String_split sep s) 1 = option_map (up_to sep) (after_first sep s).
Proof.
  rewrite String_split_cons. simpl.
  destruct (after_first sep s) as [rest|]; simpl.
  - rewrite String_split_cons. reflexivity.
  - reflexivity.
Qed.

(** ** Worlds *)

Definition entry (lv : Level) (text : string) : LogEntry := {| level := lv; line := text |}.

(** The world after an operation that made the calls [cs] and logged [ls]. *)
Definition extended {Env Cmd} (w : World Env Cmd) (env' : Env) (cs : list Cmd)
    (ls : list LogEntry) : World Env Cmd :=
  {| env := env'; calls := calls w ++ cs; logged := logged w ++ ls |}.

Ltac tidy_lists := repeat rewrite <- app_assoc; repeat rewrite app_nil_r; simpl.

Definition fresh_world {Cmd} : World unit Cmd := {| env := tt; calls := []; logged := [] |}.

(** ** The queue facade *)

Module SqsQueueProperties.
Import SqsQueue.

Ltac run_queue :=
  cbv beta iota zeta delta
    [sendMessageToDlq rescheduleMessage sendMessageToDlq_catch
     rescheduleMessage_catch sendMessage deleteMessage receiveMessage
     try_catch await bind send client_send ret throw logger_error
     logger_warn log extended entry].

Section Runs.

Variable Env : Type.
Variable sdk : SQSClient -> Command -> Env -> Promise Output * Env.
Variable this : t.

Definition delete_command (message : Message) : Command :=
  DeleteMessageCommand (queueUrl this) (ReceiptHandle message).

Definition dlq_command (message : Message) : Command :=
  SendMessageCommand (deadLetterQueueUrl this) (Body message) None.

Definition requeue_command (message : Message) : Command :=
  SendMessageCommand (queueUrl this) (Body message) (Some 30%Z).

(** What [deleteMessage] does, by the answer of the service. *)
Lemma deleteMessage_run (message : Message) (w : World Env Command) :
  deleteMessage sdk this message w =
  match sdk (sqsClient this) (delete_command message) (env w) with
  | (Normal _, env1) => (Normal tt, extended w env1 [delete_command message] [])
  | (Throw e, env1) =>
      (Throw (SqsQueueException "Failed to delete message" (Some e)),
       extended w env1 [delete_command message]
         [entry error ("Failed to delete message from SQS queue: " ++ Error_toString e)])
  end.
Proof.
  run_queue. unfold delete_command.
  destruct (sdk _ _ _) as [[out|e] env1]; simpl; tidy_lists; reflexivity.
Qed.

(** What the two compound operations do, by the answers of the service: the
    operation with the second command [second], the [catch] block of which
    warns with [warning] and wraps with [wrapped] after logging [failed]. *)
Definition compound_run (message : Message) (second : Command)
    (warning failed wrapped : string) (w : World Env Command) : Completion unit * World Env Command :=
  match sdk (sqsClient this) (delete_command message) (env w) with
  | (Throw e, env1) =>
      (Throw (SqsQueueException "Failed to delete message" (Some e)),
       extended w env1 [delete_command message]
         [entry error ("Failed to delete message from SQS queue: " ++ Error_toString e);
          entry warn warning])
  | (Normal _, env1) =>
      match sdk (sqsClient this) second env1 with
      | (Normal _, env2) =>
          (Normal tt, extended w env2 [delete_command message; second] [])
      | (Throw e, env2) =>
          if instanceof_SqsQueueException e then
            (Throw e, extended w env2 [delete_command message; second] [entry warn warning])
          else
            (Throw (SqsQueueException wrapped (Some e)),
             extended w env2 [delete_command message; second]
               [entry error (failed ++ Error_toString e)])
      end
  end.

Lemma sendMessageToDlq_run (message : Message) (w : World Env Command) :
  sendMessageToDlq sdk this message w =
  compound_run message (dlq_command message)
    "Failed to send message to DLQ while deleting message from original queue"
    "Failed to send message to SQS DLQ: " "Failed to send message to DLQ" w.
Proof.
  unfold compound_run. run_queue. unfold delete_command, dlq_command.
  destruct (sdk _ _ _) as [[out|e] env1]; simpl.
  - destruct (sdk _ _ _) as [[out2|e2] env2]; simpl.
    + tidy_lists. reflexivity.
    + destruct (instanceof_SqsQueueException e2); simpl; tidy_lists; reflexivity.
  - tidy_lists. reflexivity.
Qed.

Lemma rescheduleMessage_run (message : Message) (w : World Env Command) :
  rescheduleMessage sdk this message w =
  compound_run message (requeue_command message)
    "Failed to reschedule message while deleting message from queue"
    "Failed to reschedule message: " "Failed to reschedule message" w.
Proof.
  unfold compound_run. run_queue. unfold delete_command, requeue_command.
  destruct (sdk _ _ _) as [[out|e] env1]; simpl.
  - destruct (sdk _ _ _) as [[out2|e2] env2]; simpl.
    + tidy_lists. reflexivity.
    + destruct (instanceof_SqsQueueException e2); simpl; tidy_lists; reflexivity.
  - tidy_lists. reflexivity.
Qed.

(** C10: [deleteMessage] checks nothing about its message.  Whatever the
    message holds (a receipt token or none), it gives the SDK client exactly
    one command, a delete on the primary queue URL with the message's
    [ReceiptHandle] as it is, and it succeeds exactly when the client's answer
    is a fulfilled promise; a rejected one is the only way it fails. *)
Theorem deleteMessage_no_validation (message : Message) (w : World Env Command) :
  let command := DeleteMessageCommand (queueUrl this) (ReceiptHandle message) in
  let answer := sdk (sqsClient this) command (env w) in
  let run := deleteMessage sdk this message w in
  calls (snd run) = calls w ++ [command] /\
  env (snd run) = snd answer /\
  (fst run = Normal tt <-> exists out, fst answer = Normal out) /\
  (forall e, fst answer = Throw e ->
     fst run = Throw (SqsQueueException "Failed to delete message" (Some e))).
Proof.
  cbv zeta. rewrite deleteMessage_run. unfold delete_command.
  destruct (sdk _ _ _) as [[out|e] env1]; simpl.
  - repeat split; eauto. discriminate.
  - repeat split; try discriminate.
    + intros [out H]. discriminate.
    + intros e' H. inversion H. reflexivity.
Qed.

(** C4: when [sendMessageToDlq] succeeds, the SDK client was given exactly two
    commands, in this order: a delete on the primary queue URL with the
    message's receipt token, then a send to the dead-letter queue URL with the
    message's body and no [DelaySeconds]. *)
Theorem sendMessageToDlq_success_calls (message : Message) (w : World Env Command) :
  fst (sendMessageToDlq sdk this message w) = Normal tt ->
  calls (snd (sendMessageToDlq sdk this message w)) =
  calls w ++ [DeleteMessageCommand (queueUrl this) (ReceiptHandle message);
              SendMessageCommand (deadLetterQueueUrl this) (Body message) None].
Proof.
  rewrite sendMessageToDlq_run. unfold compound_run, delete_command, dlq_command.
  destruct (sdk _ _ _) as [[out|e] env1]; simpl; [|discriminate].
  destruct (sdk _ _ _) as [[out2|e2] env2]; simpl; [reflexivity|].
  destruct (instanceof_SqsQueueException e2); discriminate.
Qed.

(** C5: when [rescheduleMessage] succeeds, the SDK client was given exactly
    two commands, in this order: a delete on the primary queue URL with the
    message's receipt token, then a send to the same primary queue URL with the
    message's body and [DelaySeconds] 30. *)
Theorem rescheduleMessage_success_calls (message : Message) (w : World Env Command) :
  fst (rescheduleMessage sdk this message w) = Normal tt ->
  calls (snd (rescheduleMessage sdk this message w)) =
  calls w ++ [DeleteMessageCommand (queueUrl this) (ReceiptHandle message);
              SendMessageCommand (queueUrl this) (Body message) (Some 30%Z)].
Proof.
  rewrite rescheduleMessage_run. unfold compound_run, delete_command, requeue_command.
  destruct (sdk _ _ _) as [[out|e] env1]; simpl; [|discriminate].
  destruct (sdk _ _ _) as [[out2|e2] env2]; simpl; [reflexivity|].
  destruct (instanceof_SqsQueueException e2); discriminate.
Qed.

(** What [deleteMessage] throws is always a [SqsQueueException]. *)
Lemma deleteMessage_throws_wrapped (message : Message) (w : World Env Command) (x : JsError) :
  fst (deleteMessage sdk this message w) = Throw x ->
  instanceof_SqsQueueException x = true.
Proof.
  rewrite deleteMessage_run.
  destruct (sdk _ _ _) as [[out|e] env1]; simpl; intro H; inversion H; reflexivity.
Qed.

(** A compound operation whose delete step fails re-raises what the step
    threw and adds one warning to what the step logged; it makes no further
    call. *)
Lemma compound_run_delete_fails (message : Message) (second : Command)
    (warning failed wrapped : string) (w : World Env Command) (x : JsError) :
  fst (deleteMessage sdk this message w) = Throw x ->
  compound_run message second warning failed wrapped w =
  (Throw x,
   extended (snd (deleteMessage sdk this message w))
     (env (snd (deleteMessage sdk this message w))) [] [entry warn warning]).
Proof.
  rewrite deleteMessage_run. unfold compound_run.
  destruct (sdk _ _ _) as [[out|e] env1]; simpl; intro H; inversion H.
  unfold extended; simpl. tidy_lists. reflexivity.
Qed.

(** A compound operation whose delete step succeeds runs its second command
    in the world the delete step left. *)
Lemma compound_run_send_fails (message : Message) (second : Command)
    (warning failed wrapped : string) (w : World Env Command) (e : JsError) (env2 : Env) :
  fst (deleteMessage sdk this message w) = Normal tt ->
  sdk (sqsClient this) second (env (snd (deleteMessage sdk this message w))) = (Throw e, env2) ->
  compound_run message second warning failed wrapped w =
  if instanceof_SqsQueueException e then
    (Throw e, extended (snd (deleteMessage sdk this message w)) env2 [second]
                [entry warn warning])
  else
    (Throw (SqsQueueException wrapped (Some e)),
     extended (snd (deleteMessage sdk this message w)) env2 [second]
       [entry error (failed ++ Error_toString e)]).
Proof.
  rewrite deleteMessage_run. unfold compound_run.
  destruct (sdk _ _ _) as [[out|e1] env1]; simpl; intro H; inversion H.
  intro H2. rewrite H2.
  destruct (instanceof_SqsQueueException e); unfold extended; simpl; tidy_lists; reflexivity.
Qed.

Definition dlq_warning : string :=
  "Failed to send message to DLQ while deleting message from original queue".

Definition requeue_warning : string :=
  "Failed to reschedule message while deleting message from queue".

(** The [catch] block of a compound operation, by the class of what it caught. *)
Lemma sendMessageToDlq_catch_run (caught : JsError) (w : World Env Command) :
  sendMessageToDlq_catch caught w =
  if instanceof_SqsQueueException caught then
    (Throw caught, extended w (env w) [] [entry warn dlq_warning])
  else
    (Throw (SqsQueueException "Failed to send message to DLQ" (Some caught)),
     extended w (env w) []
       [entry error ("Failed to send message to SQS DLQ: " ++ Error_toString caught)]).
Proof.
  run_queue. destruct (instanceof_SqsQueueException caught); tidy_lists; reflexivity.
Qed.

Lemma rescheduleMessage_catch_run (caught : JsError) (w : World Env Command) :
  rescheduleMessage_catch caught w =
  if instanceof_SqsQueueException caught then
    (Throw caught, extended w (env w) [] [entry warn requeue_warning])
  else
    (Throw (SqsQueueException "Failed to reschedule message" (Some caught)),
     extended w (env w) []
       [entry error ("Failed to reschedule message: " ++ Error_toString caught)]).
Proof.
  run_queue. destruct (instanceof_SqsQueueException caught); tidy_lists; reflexivity.
Qed.

(** C9: in [sendMessageToDlq] and [rescheduleMessage] the branch taken depends
    on the class of the caught error alone, not on the step that threw it.
    (1) Each [catch] block warns and re-raises a [SqsQueueException], and logs
    an error and wraps anything else.  (2) What a failing delete step throws is
    always a [SqsQueueException], so the operation warns and re-raises it.
    (3) A [SqsQueueException] with which the second send is rejected is
    re-raised as it is, with a warning, and is not wrapped. *)
Theorem compound_branch_by_class (message : Message) (w : World Env Command) :
  let deleted := deleteMessage sdk this message w in
  (forall caught (w0 : World Env Command),
     sendMessageToDlq_catch caught w0 =
       (if instanceof_SqsQueueException caught then
          (Throw caught, extended w0 (env w0) [] [entry warn dlq_warning])
        else
          (Throw (SqsQueueException "Failed to send message to DLQ" (Some caught)),
           extended w0 (env w0) []
             [entry error ("Failed to send message to SQS DLQ: " ++ Error_toString caught)])) /\
     rescheduleMessage_catch caught w0 =
       (if instanceof_SqsQueueException caught then
          (Throw caught, extended w0 (env w0) [] [entry warn requeue_warning])
        else
          (Throw (SqsQueueException "Failed to reschedule message" (Some caught)),
           extended w0 (env w0) []
             [entry error ("Failed to reschedule message: " ++ Error_toString caught)]))) /\
  (forall x, fst deleted = Throw x ->
     instanceof_SqsQueueException x = true /\
     sendMessageToDlq sdk this message w =
       (Throw x, extended (snd deleted) (env (snd deleted)) [] [entry warn dlq_warning]) /\
     rescheduleMessage sdk this message w =
       (Throw x, extended (snd deleted) (env (snd deleted)) [] [entry warn requeue_warning])) /\
  (forall e env2,
     fst deleted = Normal tt ->
     instanceof_SqsQueueException e = true ->
     sdk (sqsClient this) (dlq_command message) (env (snd deleted)) = (Throw e, env2) ->
     sendMessageToDlq sdk this message w =
       (Throw e, extended (snd deleted) env2 [dlq_command message] [entry warn dlq_warning])) /\
  (forall e env2,
     fst deleted = Normal tt ->
     instanceof_SqsQueueException e = true ->
     sdk (sqsClient this) (requeue_command message) (env (snd deleted)) = (Throw e, env2) ->
     rescheduleMessage sdk this message w =
       (Throw e, extended (snd deleted) env2 [requeue_command message]
                   [entry warn requeue_warning])).
Proof.
  cbv zeta. repeat split.
  - apply sendMessageToDlq_catch_run.
  - apply rescheduleMessage_catch_run.
  - eapply deleteMessage_throws_wrapped; eassumption.
  - rewrite sendMessageToDlq_run. apply compound_run_delete_fails. assumption.
  - rewrite rescheduleMessage_run. apply compound_run_delete_fails. assumption.
  - intros e env2 Hdel He Hsend. rewrite sendMessageToDlq_run.
    rewrite compound_run_send_fails with (e := e) (env2 := env2) by assumption. rewrite He. reflexivity.
  - intros e env2 Hdel He Hsend. rewrite rescheduleMessage_run.
    rewrite compound_run_send_fails with (e := e) (env2 := env2) by assumption. rewrite He. reflexivity.
Qed.

(** C3, amended: for every message given to [sendMessageToDlq] or
    [rescheduleMessage]: (1) when the internal delete step, the call of
    [deleteMessage], fails, what it threw is re-raised as the same object and
    the operation adds one warning-level entry (after the error-level entry
    [deleteMessage] logged itself); (2) when a [catch] block gets an error that
    is no [SqsQueueException], it raises a new [SqsQueueException] with that
    error as [cause] and logs one error-level entry; (3) so does the operation
    when the second send is rejected with an error that is no
    [SqsQueueException]. *)
Theorem compound_error_attribution (message : Message) (w : World Env Command) :
  let deleted := deleteMessage sdk this message w in
  let to_dlq := sendMessageToDlq sdk this message w in
  let requeued := rescheduleMessage sdk this message w in
  (forall x, fst deleted = Throw x ->
     fst to_dlq = Throw x /\
     logged (snd to_dlq) = logged (snd deleted) ++ [entry warn dlq_warning] /\
     fst requeued = Throw x /\
     logged (snd requeued) = logged (snd deleted) ++ [entry warn requeue_warning]) /\
  (forall caught (w0 : World Env Command), instanceof_SqsQueueException caught = false ->
     let wrapped_dlq := SqsQueueException "Failed to send message to DLQ" (Some caught) in
     let wrapped_requeue := SqsQueueException "Failed to reschedule message" (Some caught) in
     fst (sendMessageToDlq_catch caught w0) = Throw wrapped_dlq /\
     wrapped_dlq <> caught /\
     logged (snd (sendMessageToDlq_catch caught w0)) =
       logged w0 ++ [entry error ("Failed to send message to SQS DLQ: " ++ Error_toString caught)] /\
     fst (rescheduleMessage_catch caught w0) = Throw wrapped_requeue /\
     wrapped_requeue <> caught /\
     logged (snd (rescheduleMessage_catch caught w0)) =
       logged w0 ++ [entry error ("Failed to reschedule message: " ++ Error_toString caught)]) /\
  (forall e env2,
     fst deleted = Normal tt ->
     instanceof_SqsQueueException e = false ->
     sdk (sqsClient this) (dlq_command message) (env (snd deleted)) = (Throw e, env2) ->
     fst to_dlq = Throw (SqsQueueException "Failed to send message to DLQ" (Some e)) /\
     logged (snd to_dlq) =
       logged (snd deleted) ++ [entry error ("Failed to send message to SQS DLQ: " ++ Error_toString e)]) /\
  (forall e env2,
     fst deleted = Normal tt ->
     instanceof_SqsQueueException e = false ->
     sdk (sqsClient this) (requeue_command message) (env (snd deleted)) = (Throw e, env2) ->
     fst requeued = Throw (SqsQueueException "Failed to reschedule message" (Some e)) /\
     logged (snd requeued) =
       logged (snd deleted) ++ [entry error ("Failed to reschedule message: " ++ Error_toString e)]).
Proof.
  cbv zeta. split; [|split; [|split]].
  - intros x Hdel.
    rewrite sendMessageToDlq_run, rescheduleMessage_run.
    rewrite !compound_run_delete_fails with (x := x) by assumption. simpl. auto.
  - intros caught w0 Hclass.
    rewrite sendMessageToDlq_catch_run, rescheduleMessage_catch_run, Hclass. simpl.
    repeat split; auto using SqsQueueException_fresh.
  - intros e env2 Hdel He Hsend. rewrite sendMessageToDlq_run.
    rewrite compound_run_send_fails with (e := e) (env2 := env2) by assumption. rewrite He. simpl. auto.
  - intros e env2 Hdel He Hsend. rewrite rescheduleMessage_run.
    rewrite compound_run_send_fails with (e := e) (env2 := env2) by assumption. rewrite He. simpl. auto.
Qed.

End Runs.

(** *** The constructor *)

(** C8: for every queue URL given to the constructor, the region given to the
    SQS client is the entry at index 1 of the URL split on ['.'], which is the
    second dot-delimited segment of the URL (and [undefined] when the URL has
    no dot). *)
Theorem constructor_region_second_segment (queueUrl deadLetterQueueUrl : string) :
  region (sqsClient (new queueUrl deadLetterQueueUrl)) =
    nth_error (String_split "." queueUrl) 1 /\
  region (sqsClient (new queueUrl deadLetterQueueUrl)) = spec_second_dot_segment queueUrl.
Proof.
  split; [reflexivity|]. simpl. apply String_split_index_1.
Qed.




(** *** The objects of the test suite *)

Definition queueUrl_test : string := "https://sqs.region.amazonaws.com/123456789012/MyQueue".

Definition deadLetterQueueUrl_test : string :=
  "https://sqs.region.amazonaws.com/123456789012/MyQueue-dlq".

Definition sqsQueue : t := new queueUrl_test deadLetterQueueUrl_test.

Definition testMessage : Message :=
  {| MessageId := Some "test-message-id";
     ReceiptHandle := Some "test-receipt-handle";
     Body := Some "Hello, SQS!" |}.

(** A mocked client: it answers every delete with [on_delete], every send
    with [on_send] and every receive with [on_receive]. *)
Definition mockedSqsClient (on_delete on_send on_receive : Promise Output)
    : SQSClient -> Command -> unit -> Promise Output * unit :=
  fun _ command _ =>
    match command with
    | DeleteMessageCommand _ _ => (on_delete, tt)
    | SendMessageCommand _ _ _ => (on_send, tt)
    | ReceiveMessageCommand _ _ _ => (on_receive, tt)
    end.

(** [.resolves({})] *)
Definition resolves_empty : Promise Output := Normal {| Messages := None |}.

Example region_of_test_queue : region (sqsClient sqsQueue) = Some "region".
Proof. reflexivity. Qed.

Example region_without_dot : region (sqsClient (new "localhost:9324/queue" "dlq")) = None.
Proof. reflexivity. Qed.

(** *** Runs of the test suite *)

(** A client that accepts everything. *)
Definition accepting : SQSClient -> Command -> unit -> Promise Output * unit :=
  mockedSqsClient resolves_empty resolves_empty resolves_empty.

(** A client whose delete is rejected with [new Error('Delete message
    failed')]. *)
Definition delete_failing : SQSClient -> Command -> unit -> Promise Output * unit :=
  mockedSqsClient (Throw (Error_ "Error" "Delete message failed")) resolves_empty resolves_empty.

(** A client whose send is rejected with [new Error('Send message to DLQ
    failed')]. *)
Definition send_failing : SQSClient -> Command -> unit -> Promise Output * unit :=
  mockedSqsClient resolves_empty (Throw (Error_ "Error" "Send message to DLQ failed"))
    resolves_empty.

(** What [deleteMessage] throws when its delete is rejected with that error. *)
Definition delete_failure : JsError :=
  SqsQueueException "Failed to delete message" (Some (Error_ "Error" "Delete message failed")).

(** A [SqsQueueException] made outside the facade, as the mock of the two
    warning tests rejects with; here the send is rejected with it. *)
Definition wrapped_elsewhere : JsError :=
  SqsQueueException "Queue is not available" (Some (Error_ "Error" "socket hang up")).

Definition send_failing_wrapped : SQSClient -> Command -> unit -> Promise Output * unit :=
  mockedSqsClient resolves_empty (Throw wrapped_elsewhere) resolves_empty.

Lemma sendMessageToDlq_success_calls_witness :
  fst (sendMessageToDlq accepting sqsQueue testMessage fresh_world) = Normal tt /\
  calls (snd (sendMessageToDlq accepting sqsQueue testMessage fresh_world)) =
    [DeleteMessageCommand queueUrl_test (Some "test-receipt-handle");
     SendMessageCommand deadLetterQueueUrl_test (Some "Hello, SQS!") None].
Proof.
  split; [reflexivity|].
  apply (sendMessageToDlq_success_calls accepting sqsQueue testMessage fresh_world).
  reflexivity.
Defined.

Lemma rescheduleMessage_success_calls_witness :
  fst (rescheduleMessage accepting sqsQueue testMessage fresh_world) = Normal tt /\
  calls (snd (rescheduleMessage accepting sqsQueue testMessage fresh_world)) =
    [DeleteMessageCommand queueUrl_test (Some "test-receipt-handle");
     SendMessageCommand queueUrl_test (Some "Hello, SQS!") (Some 30%Z)].
Proof.
  split; [reflexivity|].
  apply (rescheduleMessage_success_calls accepting sqsQueue testMessage fresh_world).
  reflexivity.
Defined.

(** A message without a receipt token goes to the client all the same. *)
Example deleteMessage_without_receipt :
  calls (snd (deleteMessage accepting sqsQueue
                {| MessageId := None; ReceiptHandle := None; Body := None |} fresh_world)) =
  [DeleteMessageCommand queueUrl_test None].
Proof. reflexivity. Qed.

(** The delete step fails: the object [deleteMessage] threw comes back, after
    its error entry and one warning.  The send is rejected with a
    [SqsQueueException]: that object comes back, with one warning. *)
Lemma compound_branch_by_class_witness :
  sendMessageToDlq delete_failing sqsQueue testMessage fresh_world =
    (Throw delete_failure,
     {| env := tt;
        calls := [DeleteMessageCommand queueUrl_test (Some "test-receipt-handle")];
        logged := [entry error "Failed to delete message from SQS queue: Error: Delete message failed";
                   entry warn dlq_warning] |}) /\
  sendMessageToDlq send_failing_wrapped sqsQueue testMessage fresh_world =
    (Throw wrapped_elsewhere,
     {| env := tt;
        calls := [DeleteMessageCommand queueUrl_test (Some "test-receipt-handle");
                  SendMessageCommand deadLetterQueueUrl_test (Some "Hello, SQS!") None];
        logged := [entry warn dlq_warning] |}) /\
  rescheduleMessage send_failing_wrapped sqsQueue testMessage fresh_world =
    (Throw wrapped_elsewhere,
     {| env := tt;
        calls := [DeleteMessageCommand queueUrl_test (Some "test-receipt-handle");
                  SendMessageCommand queueUrl_test (Some "Hello, SQS!") (Some 30%Z)];
        logged := [entry warn requeue_warning] |}).
Proof.
  split; [|split].
  - apply (proj1 (proj2 (proj1 (proj2
      (compound_branch_by_class delete_failing sqsQueue testMessage fresh_world))
      delete_failure eq_refl))).
  - apply (proj1 (proj2 (proj2
      (compound_branch_by_class send_failing_wrapped sqsQueue testMessage fresh_world)))
      wrapped_elsewhere tt eq_refl eq_refl eq_refl).
  - apply (proj2 (proj2 (proj2
      (compound_branch_by_class send_failing_wrapped sqsQueue testMessage fresh_world)))
      wrapped_elsewhere tt eq_refl eq_refl eq_refl).
Defined.

(** The delete step fails; a [catch] block gets a plain [Error]; the send is
    rejected with a plain [Error]. *)
Lemma compound_error_attribution_witness :
  (fst (sendMessageToDlq delete_failing sqsQueue testMessage fresh_world) =
     fst (deleteMessage delete_failing sqsQueue testMessage fresh_world) /\
   logged (snd (sendMessageToDlq delete_failing sqsQueue testMessage fresh_world)) =
     [entry error "Failed to delete message from SQS queue: Error: Delete message failed";
      entry warn dlq_warning]) /\
  (fst (@rescheduleMessage_catch unit (Error_ "Error" "Reschedule message failed") fresh_world) =
     Throw (SqsQueueException "Failed to reschedule message"
              (Some (Error_ "Error" "Reschedule message failed"))) /\
   logged (snd (@rescheduleMessage_catch unit (Error_ "Error" "Reschedule message failed")
                  fresh_world)) =
     [entry error "Failed to reschedule message: Error: Reschedule message failed"]) /\
  (fst (sendMessageToDlq send_failing sqsQueue testMessage fresh_world) =
     Throw (SqsQueueException "Failed to send message to DLQ"
              (Some (Error_ "Error" "Send message to DLQ failed"))) /\
   logged (snd (sendMessageToDlq send_failing sqsQueue testMessage fresh_world)) =
     [entry error "Failed to send message to SQS DLQ: Error: Send message to DLQ failed"]) /\
  (fst (rescheduleMessage send_failing sqsQueue testMessage fresh_world) =
     Throw (SqsQueueException "Failed to reschedule message"
              (Some (Error_ "Error" "Send message to DLQ failed"))) /\
   logged (snd (rescheduleMessage send_failing sqsQueue testMessage fresh_world)) =
     [entry error "Failed to reschedule message: Error: Send message to DLQ failed"]).
Proof.
  split; [|split; [|split]].
  - pose proof (proj1
      (compound_error_attribution delete_failing sqsQueue testMessage fresh_world)
      delete_failure eq_refl) as H.
    split; [apply H | apply (proj1 (proj2 H))].
  - pose proof (proj1 (proj2
      (compound_error_attribution delete_failing sqsQueue testMessage fresh_world))
      (Error_ "Error" "Reschedule message failed") fresh_world eq_refl) as H.
    cbv zeta in H. split; [apply H | apply H].
  - apply (proj1 (proj2 (proj2
      (compound_error_attribution send_failing sqsQueue testMessage fresh_world)))
      (Error_ "Error" "Send message to DLQ failed") tt eq_refl eq_refl eq_refl).
  - apply (proj2 (proj2 (proj2
      (compound_error_attribution send_failing sqsQueue testMessage fresh_world)))
      (Error_ "Error" "Send message to DLQ failed") tt eq_refl eq_refl eq_refl).
Defined.

(** The second sentence of the attribution rule, as the spec has it, of a run
    [r] in which a step failed with [caught]: a fresh queue wrapped error is
    raised, and an error-level entry is logged. *)
Definition fresh_wrapper_and_error_entry {Env} (caught : JsError)
    (r : Completion unit * World Env Command) : Prop :=
  (exists raised, fst r = Throw raised /\
                  instanceof_SqsQueueException raised = true /\ raised <> caught) /\
  existsb is_error_entry (logged (snd r)) = true.

(** C3, as the spec has it, fails where the second send is rejected with a
    [SqsQueueException]: the delete step succeeds, the send fails, and the
    operation re-raises the very object of the rejection and logs a warning
    and no error. *)
Lemma send_rejected_with_wrapped_error_not_rewrapped :
  let r := sendMessageToDlq send_failing_wrapped sqsQueue testMessage fresh_world in
  fst (deleteMessage send_failing_wrapped sqsQueue testMessage fresh_world) = Normal tt /\
  fst (send_failing_wrapped (sqsClient sqsQueue) (dlq_command sqsQueue testMessage) tt) =
    Throw wrapped_elsewhere /\
  fst r = Throw wrapped_elsewhere /\
  logged (snd r) = [entry warn dlq_warning] /\
  ~ fresh_wrapper_and_error_entry wrapped_elsewhere r.
Proof.
  cbv zeta. repeat split.
  intros [_ H]. vm_compute in H. discriminate.
Qed.

End SqsQueueProperties.

(** ** The bucket facade *)

Module S3BucketProperties.
Import S3Bucket.

Ltac run_bucket :=
  cbv beta iota zeta delta
    [listObjects headObject downloadObject deleteObject getPreSignedUrlDownload
     getPreSignedUrlForUpload try_catch await adopt bind send client_send
     helper_call ret throw logger_error logger_warn log extended entry].

Ltac run_upload :=
  cbv beta iota zeta delta
    [try_catch await bind send client_send ret throw extended entry].

Section Runs.

Variable Env : Type.
Variable s3 : S3Client -> Command -> Env -> Promise Output * Env.
Variable signer : S3Client -> Command -> Z -> Env -> Completion (Promise string) * Env.
Variable this : t.

(** One command sent inside [try], its answer turned into the result by
    [result], a rejection logged and wrapped under the message [failed]. *)
Definition wrapped_send {A} (command : Command) (result : Output -> A) (failed : string)
    (w : World Env Command) : Completion A * World Env Command :=
  match s3 (s3Client this) command (env w) with
  | (Normal out, env1) => (Normal (result out), extended w env1 [command] [])
  | (Throw e, env1) =>
      (Throw (S3BucketException failed (Some e)),
       extended w env1 [command] [entry error (failed ++ ": " ++ Error_toString e)])
  end.

Lemma listObjects_run (prefix : option string) (maxKeys : option Z) (w : World Env Command) :
  listObjects s3 this prefix maxKeys w =
  wrapped_send
    (ListObjectsV2Command (bucketName this) (default_arg "" prefix) (default_arg 1000%Z maxKeys))
    (fun out => or_else (Contents out) []) "Failed to list objects in S3" w.
Proof.
  unfold wrapped_send. run_bucket.
  destruct (s3 _ _ _) as [[out|e] env1]; tidy_lists; reflexivity.
Qed.

Lemma headObject_run (key : string) (w : World Env Command) :
  headObject s3 this key w =
  wrapped_send (HeadObjectCommand (bucketName this) key) (fun out => out)
    "Failed to head object from S3" w.
Proof.
  unfold wrapped_send. run_bucket.
  destruct (s3 _ _ _) as [[out|e] env1]; tidy_lists; reflexivity.
Qed.

Lemma downloadObject_run (key : string) (w : World Env Command) :
  downloadObject s3 this key w =
  wrapped_send (GetObjectCommand (bucketName this) key) ResponseBody
    "Failed to download object from S3" w.
Proof.
  unfold wrapped_send. run_bucket.
  destruct (s3 _ _ _) as [[out|e] env1]; tidy_lists; reflexivity.
Qed.

Lemma deleteObject_run (key : string) (w : World Env Command) :
  deleteObject s3 this key w =
  wrapped_send (DeleteObjectCommand (bucketName this) key) (fun _ => tt)
    "Failed to delete object from S3" w.
Proof.
  unfold wrapped_send. run_bucket.
  destruct (s3 _ _ _) as [[out|e] env1]; tidy_lists; reflexivity.
Qed.

(** What [uploadObject] does with the way [upload.done()] ends. *)
Lemma uploadObject_run (key : string) (body : UploadSource) (w : World Env Command) :
  uploadObject s3 this key body w =
  let upload := {| client := s3Client this; params_Bucket := bucketName this;
                   params_Key := key; params_Body := body;
                   partSize := 1024 * 1024 * 100 |} in
  match Upload_done s3 upload w with
  | (Normal _, w1) => (Normal tt, w1)
  | (Throw e, w1) =>
      (Throw (S3BucketException "Failed to upload object to S3" (Some e)),
       extended w1 (env w1) []
         [entry error ("Failed to upload object to S3: " ++ Error_toString e)])
  end.
Proof.
  cbv zeta. unfold uploadObject, try_catch.
  destruct (Upload_done _ _ _) as [[[]|e] w1]; [reflexivity|].
  cbv beta iota zeta delta [bind logger_error log throw extended entry].
  tidy_lists. reflexivity.
Qed.

(** What a presign operation does, by what [getSignedUrl] does: a throw at
    the call is logged and wrapped; a promise it returns is what the operation
    settles to, fulfilled or rejected. *)
Definition presign_run (command : Command) (expiresIn : Z) (failed : string)
    (w : World Env Command) : Completion string * World Env Command :=
  match signer (s3Client this) command expiresIn (env w) with
  | (Normal (Normal url), env1) => (Normal url, extended w env1 [] [])
  | (Normal (Throw e), env1) => (Throw e, extended w env1 [] [])
  | (Throw e, env1) =>
      (Throw (S3BucketException failed (Some e)),
       extended w env1 [] [entry error (failed ++ ": " ++ Error_toString e)])
  end.

Lemma getPreSignedUrlDownload_run (key : string) (expiresIn : option Z)
    (w : World Env Command) :
  getPreSignedUrlDownload signer this key expiresIn w =
  presign_run (GetObjectCommand (bucketName this) key) (default_arg 900%Z expiresIn)
    "Failed to get pre-signed url for download" w.
Proof.
  unfold presign_run. run_bucket.
  destruct (signer _ _ _ _) as [[[url|e]|e] env1]; tidy_lists; reflexivity.
Qed.

Lemma getPreSignedUrlForUpload_run (key : string) (expiresIn : option Z)
    (w : World Env Command) :
  getPreSignedUrlForUpload signer this key expiresIn w =
  presign_run (PutObjectCommand (bucketName this) key None) (default_arg 900%Z expiresIn)
    "Failed to get pre-signed url for upload" w.
Proof.
  unfold presign_run. run_bucket.
  destruct (signer _ _ _ _) as [[[url|e]|e] env1]; tidy_lists; reflexivity.
Qed.

(** *** The upload strategy *)

Local Open Scope N_scope.

Definition put_command (u : Upload) : Command :=
  PutObjectCommand (params_Bucket u) (params_Key u) (Some (payload_of (params_Body u))).

Definition part_command (u : Upload) (uploadId : option string) (part : DataPart) : Command :=
  UploadPartCommand (params_Bucket u) (params_Key u) uploadId (partNumber part) (data part).

(** A payload of at most one part size: one put, and its answer decides. *)
Lemma Upload_done_put (u : Upload) (w : World Env Command) :
  byteLength (payload_of (params_Body u)) <= partSize u ->
  Upload_done s3 u w =
  match s3 (client u) (put_command u) (env w) with
  | (Normal _, env1) => (Normal tt, extended w env1 [put_command u] [])
  | (Throw e, env1) => (Throw e, extended w env1 [put_command u] [])
  end.
Proof.
  intro Hsmall. unfold Upload_done. cbv zeta.
  replace (partSize u <? byteLength (payload_of (params_Body u))) with false
    by (symmetry; apply N.ltb_ge; assumption).
  run_upload. unfold put_command.
  destruct (s3 _ _ _) as [[out|e] env1]; tidy_lists; reflexivity.
Qed.

(** Part uploads that all succeed: one call per part, in the order of the
    parts, and one entry per part, with its number, for the completion call. *)
Lemma upload_parts_calls (u : Upload) (uploadId : option string) (parts : list DataPart) :
  forall (w w1 : World Env Command) (completed : list CompletedPart),
  upload_parts s3 u uploadId parts w = (Normal completed, w1) ->
  calls w1 = calls w ++ map (part_command u uploadId) parts /\
  map PartNumber completed = map partNumber parts /\
  logged w1 = logged w.
Proof.
  induction parts as [|part rest IH]; intros w w1 completed H.
  - simpl in H. unfold ret in H. inversion H. subst. tidy_lists. auto.
  - simpl in H. revert H. run_upload.
    destruct (s3 _ _ _) as [[out|e] env1]; [|discriminate].
    destruct (upload_parts s3 u uploadId rest _) as [[others|e] w2] eqn:Hrest; [|discriminate].
    intro H. inversion H. subst. apply IH in Hrest. simpl in Hrest.
    destruct Hrest as (Hcalls & Hnumbers & Hlogged).
    simpl. rewrite Hcalls, Hnumbers, Hlogged. unfold part_command. tidy_lists. auto.
Qed.

(** A payload larger than the part size, and an upload that succeeds: the
    initiate call, the part uploads of the split, the completion call. *)
Lemma Upload_done_multipart (u : Upload) (w w1 : World Env Command) :
  partSize u < byteLength (payload_of (params_Body u)) ->
  Upload_done s3 u w = (Normal tt, w1) ->
  exists (uploadId : option string) (completed : list CompletedPart),
    calls w1 =
      calls w ++
      [CreateMultipartUploadCommand (params_Bucket u) (params_Key u)] ++
      map (part_command u uploadId)
        (split_payload (payload_of (params_Body u)) (partSize u)) ++
      [CompleteMultipartUploadCommand (params_Bucket u) (params_Key u) uploadId completed] /\
    map PartNumber completed =
      map partNumber (split_payload (payload_of (params_Body u)) (partSize u)) /\
    logged w1 = logged w.
Proof.
  intros Hlarge. unfold Upload_done. cbv zeta.
  replace (partSize u <? byteLength (payload_of (params_Body u))) with true
    by (symmetry; apply N.ltb_lt; assumption).
  run_upload.
  destruct (s3 _ _ _) as [[session|e] env1]; [|discriminate].
  destruct (upload_parts _ _ _ _ _) as [[completed|e] w2] eqn:Hparts; [|discriminate].
  apply upload_parts_calls in Hparts. simpl in Hparts.
  destruct Hparts as (Hcalls & Hnumbers & Hlogged).
  destruct (s3 _ _ _) as [[out|e] env2]; [|discriminate].
  intro H. inversion H. subst. simpl.
  exists (UploadId session), completed.
  rewrite Hcalls, Hlogged. tidy_lists. auto.
Qed.

(** **** The split of a payload *)

(** The [i]-th part (from 0) of a split that starts at [startByte] with the
    number [partNumber]. *)
Definition part_from (payload : Buffer) (partSize partNumber startByte : N) (i : nat)
    : DataPart :=
  {| partNumber := partNumber + N.of_nat i;
     data := Buffer_slice payload (startByte + N.of_nat i * partSize)
               (startByte + N.of_nat (S i) * partSize) |}.

(** The number of parts of [size] bytes in parts of [partSize] bytes: the
    quotient rounded up. *)
Definition parts_count (size partSize : N) : N := (size + partSize - 1) / partSize.

Lemma parts_count_ceiling (size partSize : N) :
  0 < partSize -> 0 < size ->
  parts_count size partSize = (size - 1) / partSize + 1 /\
  partSize * (parts_count size partSize - 1) < size <= partSize * parts_count size partSize.
Proof.
  intros HP HL. unfold parts_count.
  assert (Hq : (size + partSize - 1) / partSize = (size - 1) / partSize + 1).
  { replace (size + partSize - 1) with (size - 1 + 1 * partSize) by lia.
    apply N.div_add. lia. }
  rewrite Hq. split; [reflexivity|].
  pose proof (N.Div0.mul_div_le (size - 1) partSize) as Hlow.
  pose proof (N.mul_succ_div_gt (size - 1) partSize ltac:(lia)) as Hhigh.
  rewrite <- N.add_1_r in Hhigh. rewrite N.add_sub.
  generalize dependent ((size - 1) / partSize). intros q _ Hlow Hhigh. lia.
Qed.

Lemma Buffer_slice_past_end (payload : Buffer) (startByte e1 e2 : N) :
  byteLength payload <= e1 -> byteLength payload <= e2 ->
  Buffer_slice payload startByte e1 = Buffer_slice payload startByte e2.
Proof.
  intros H1 H2. unfold Buffer_slice. cbv zeta.
  rewrite (N.min_r e1), (N.min_r e2) by assumption. reflexivity.
Qed.

Lemma last_part_from (payload : Buffer) (partSize partNumber startByte : N) :
  byteLength payload <= startByte + partSize ->
  {| partNumber := partNumber;
     data := Buffer_slice payload startByte (byteLength payload) |} =
  part_from payload partSize partNumber startByte 0.
Proof.
  intro H. unfold part_from. f_equal; [lia|].
  replace (startByte + N.of_nat 0 * partSize) with startByte by lia.
  apply Buffer_slice_past_end; lia.
Qed.

Lemma part_from_shift (payload : Buffer) (partSize partNumber startByte : N) (i : nat) :
  part_from payload partSize partNumber startByte (S i) =
  part_from payload partSize (partNumber + 1) (startByte + partSize) i.
Proof.
  unfold part_from. f_equal; [lia|]. f_equal; lia.
Qed.

(** The loop of [split_from], when [k] full parts and a last one are left and
    the bound allows [k] rounds. *)
Lemma split_from_parts (payload : Buffer) (partSize : N) (k : nat) :
  forall (bound : nat) (partNumber startByte : N),
  (k <= bound)%nat ->
  startByte + N.of_nat k * partSize < byteLength payload ->
  byteLength payload <= startByte + N.of_nat (S k) * partSize ->
  split_from bound payload partSize partNumber startByte =
  map (part_from payload partSize partNumber startByte) (seq 0 (S k)).
Proof.
  induction k as [|k IH]; intros bound partNumber startByte Hbound Hlow Hhigh.
  - assert (Hlast : byteLength payload <= startByte + partSize) by lia.
    destruct bound as [|bound]; simpl.
    + rewrite last_part_from with (partSize := partSize) by assumption. reflexivity.
    + replace (startByte + partSize <? byteLength payload) with false
        by (symmetry; apply N.ltb_ge; assumption).
      rewrite last_part_from with (partSize := partSize) by assumption. reflexivity.
  - destruct bound as [|bound]; [lia|].
    assert (Hmore : startByte + partSize < byteLength payload) by lia.
    cbn [split_from].
    replace (startByte + partSize <? byteLength payload) with true
      by (symmetry; apply N.ltb_lt; assumption).
    rewrite (IH bound (partNumber + 1) (startByte + partSize)) by lia.
    change (seq 0 (S (S k))) with (0%nat :: seq 1 (S k)).
    rewrite <- seq_shift, map_cons, map_map. f_equal.
    + unfold part_from. f_equal; [lia|]. f_equal; lia.
    + apply map_ext. intro i. symmetry. apply part_from_shift.
Qed.

(** The split of a payload that is not empty: its parts, from the first. *)
Lemma split_payload_parts (payload : Buffer) (partSize : N) :
  0 < partSize -> 0 < byteLength payload ->
  split_payload payload partSize =
  map (part_from payload partSize 1 0)
    (seq 0 (N.to_nat (parts_count (byteLength payload) partSize))).
Proof.
  intros HP HL. unfold split_payload.
  destruct (parts_count_ceiling HP HL) as [Hcount [Hlow Hhigh]].
  rewrite Hcount in *. rewrite N.add_sub in Hlow. rewrite N.add_1_r, N2Nat.inj_succ.
  assert (Hbound : (byteLength payload - 1) / partSize <= byteLength payload / partSize)
    by (apply N.Div0.div_le_mono; lia).
  revert Hlow Hhigh Hbound.
  generalize (byteLength payload / partSize) ((byteLength payload - 1) / partSize).
  intros b q Hlow Hhigh Hbound.
  apply split_from_parts.
  - lia.
  - rewrite N2Nat.id. lia.
  - rewrite <- N2Nat.inj_succ, N2Nat.id. lia.
Qed.

(** The bytes of the [i]-th part (from 0) of a payload cut every [partSize]
    bytes. *)
Definition slice_at (payload : Buffer) (partSize : N) (i : nat) : Buffer :=
  Buffer_slice payload (N.of_nat i * partSize) (N.of_nat (S i) * partSize).

Lemma part_from_start (payload : Buffer) (partSize : N) (i : nat) :
  part_from payload partSize 1 0 i =
  {| partNumber := N.of_nat (S i); data := slice_at payload partSize i |}.
Proof.
  unfold part_from, slice_at. rewrite !N.add_0_l. f_equal. lia.
Qed.

(** Every part but the last has the part size; the last one is not empty and
    not larger. *)
Lemma slice_sizes (payload : Buffer) (partSize : N) :
  0 < partSize -> 0 < byteLength payload ->
  let n := N.to_nat (parts_count (byteLength payload) partSize) in
  (forall i, (S i < n)%nat -> byteLength (slice_at payload partSize i) = partSize) /\
  0 < byteLength (slice_at payload partSize (n - 1)) <= partSize.
Proof.
  intros HP HL n.
  destruct (parts_count_ceiling HP HL) as [Hcount [Hlow Hhigh]].
  assert (Hn : N.of_nat n = parts_count (byteLength payload) partSize)
    by (unfold n; apply N2Nat.id).
  rewrite <- Hn in *. clear Hn.
  assert (Hpos : (0 < n)%nat) by lia.
  unfold slice_at, Buffer_slice. cbn [byteLength]. split.
  - intros i Hi.
    assert (N.of_nat (S i) * partSize <= partSize * (N.of_nat n - 1)) by nia.
    assert (N.of_nat i * partSize <= N.of_nat (S i) * partSize) by nia.
    rewrite !N.min_l by lia. nia.
  - replace (S (n - 1)) with n by lia.
    replace (N.of_nat (n - 1)) with (N.of_nat n - 1) by lia.
    rewrite N.min_r, N.min_l by lia. nia.
Qed.

(** A large payload, and an upload that succeeds: the calls, by the part
    size. *)
Lemma Upload_done_sequence (u : Upload) (w w1 : World Env Command) :
  let payload := payload_of (params_Body u) in
  let n := N.to_nat (parts_count (byteLength payload) (partSize u)) in
  0 < partSize u -> partSize u < byteLength payload ->
  Upload_done s3 u w = (Normal tt, w1) ->
  exists (uploadId : option string) (completed : list CompletedPart),
    calls w1 =
      calls w ++
      [CreateMultipartUploadCommand (params_Bucket u) (params_Key u)] ++
      map (fun i => UploadPartCommand (params_Bucket u) (params_Key u) uploadId
                      (N.of_nat (S i)) (slice_at payload (partSize u) i)) (seq 0 n) ++
      [CompleteMultipartUploadCommand (params_Bucket u) (params_Key u) uploadId completed] /\
    map PartNumber completed = map (fun i => N.of_nat (S i)) (seq 0 n) /\
    logged w1 = logged w.
Proof.
  intros payload n HP Hlarge Hdone.
  destruct (Upload_done_multipart u w Hlarge Hdone) as (uploadId & completed & Hcalls & Hnum & Hlog).
  exists uploadId, completed. subst payload n.
  rewrite split_payload_parts in Hcalls, Hnum by lia.
  rewrite map_map in Hcalls, Hnum.
  split; [|split; [|assumption]].
  - rewrite Hcalls. do 2 f_equal. f_equal. apply map_ext. intro i.
    rewrite part_from_start. reflexivity.
  - rewrite Hnum. apply map_ext. intro i. rewrite part_from_start. reflexivity.
Qed.

(** C2, on the upload helper as the spec describes it: for every payload of at
    most 104857600 bytes, [uploadObject] gives the client exactly one command,
    a put on the facade's bucket and the given key with the payload, so no
    initiate, part-upload or completion call; it succeeds exactly when that
    put is accepted. *)
Theorem uploadObject_single_put (key : string) (body : UploadSource)
    (w : World Env Command) :
  byteLength (payload_of body) <= 104857600 ->
  let put := PutObjectCommand (bucketName this) key (Some (payload_of body)) in
  let run := uploadObject s3 this key body w in
  calls (snd run) = calls w ++ [put] /\
  (fst run = Normal tt <-> exists out, fst (s3 (s3Client this) put (env w)) = Normal out).
Proof.
  intros Hsmall put run. unfold run. rewrite uploadObject_run. cbv zeta.
  rewrite Upload_done_put by exact Hsmall.
  unfold put_command. cbn [params_Bucket params_Key params_Body client]. fold put.
  destruct (s3 _ _ _) as [[out|e] env1]; simpl.
  - split; [reflexivity|]. split; eauto.
  - tidy_lists. split; [reflexivity|]. split; [discriminate|].
    intros [out H]. discriminate.
Qed.

(** C1, on the upload helper as the spec describes it: for every payload of
    more than 104857600 bytes, an [uploadObject] that succeeds gave the client
    one initiate call, then one part upload for each of the
    [parts_count size 104857600] parts, numbered 1, 2, ... in this order, then
    one completion call that lists all these part numbers.  Every part but the
    last has 104857600 bytes, the last one between 1 and 104857600, and the
    number of parts is the payload size over 104857600, rounded up. *)
Theorem uploadObject_multipart_sequence (key : string) (body : UploadSource)
    (w : World Env Command) :
  let payload := payload_of body in
  let size := byteLength payload in
  let n := N.to_nat (parts_count size 104857600) in
  let run := uploadObject s3 this key body w in
  104857600 < size ->
  fst run = Normal tt ->
  exists (uploadId : option string) (completed : list CompletedPart),
    calls (snd run) =
      calls w ++
      [CreateMultipartUploadCommand (bucketName this) key] ++
      map (fun i => UploadPartCommand (bucketName this) key uploadId
                      (N.of_nat (S i)) (slice_at payload 104857600 i)) (seq 0 n) ++
      [CompleteMultipartUploadCommand (bucketName this) key uploadId completed] /\
    map PartNumber completed = map (fun i => N.of_nat (S i)) (seq 0 n) /\
    (forall i, (S i < n)%nat -> byteLength (slice_at payload 104857600 i) = 104857600) /\
    0 < byteLength (slice_at payload 104857600 (n - 1)) <= 104857600 /\
    104857600 * (N.of_nat n - 1) < size <= 104857600 * N.of_nat n.
Proof.
  intros payload size n run Hlarge. unfold run. rewrite uploadObject_run. cbv zeta.
  destruct (Upload_done _ _ _) as [[[]|e] w1] eqn:Hdone; simpl; [|discriminate].
  intros _.
  apply Upload_done_sequence in Hdone; [|reflexivity|exact Hlarge].
  destruct Hdone as (uploadId & completed & Hcalls & Hnum & _).
  exists uploadId, completed.
  destruct (@slice_sizes payload 104857600) as [Hfull Hlast]; [reflexivity|unfold size in *; lia|].
  destruct (@parts_count_ceiling size 104857600) as [_ Hceil]; [reflexivity|lia|].
  split; [exact Hcalls|]. split; [exact Hnum|]. split; [exact Hfull|]. split; [exact Hlast|].
  unfold n. rewrite N2Nat.id. exact Hceil.
Qed.

End Runs.

(** *** Runs of the test suite *)

Definition s3Bucket : t := new "region" "testBucket".

Definition empty_output : Output :=
  {| Contents := None; ResponseBody := None; UploadId := None; ResponseETag := None |}.

(** The mock of the multipart tests: an initiate call resolves to
    [{ UploadId: 'upload-id' }], a part upload to [{ ETag: 'etag' }], anything
    else to [{}]. *)
Definition mockedS3Client : S3Client -> Command -> unit -> Promise Output * unit :=
  fun _ command _ =>
    match command with
    | CreateMultipartUploadCommand _ _ =>
        (Normal {| Contents := None; ResponseBody := None;
                   UploadId := Some "upload-id"; ResponseETag := None |}, tt)
    | UploadPartCommand _ _ _ _ _ =>
        (Normal {| Contents := None; ResponseBody := None;
                   UploadId := None; ResponseETag := Some "etag" |}, tt)
    | _ => (Normal empty_output, tt)
    end.

(** [Buffer.alloc(multipartUploadSizeThreshold + 1, 'a')] *)
Definition large_body : UploadSource := BodyBuffer (Buffer_alloc (100 * 1024 * 1024 + 1) "a").

Lemma uploadObject_single_put_witness :
  calls (snd (uploadObject mockedS3Client s3Bucket "test/object1" (BodyString "test data")
                fresh_world)) =
    [PutObjectCommand "testBucket" "test/object1" (Some (Buffer_from "test data"))] /\
  fst (uploadObject mockedS3Client s3Bucket "test/object1" (BodyString "test data")
         fresh_world) = Normal tt.
Proof.
  destruct (uploadObject_single_put mockedS3Client s3Bucket "test/object1"
              (BodyString "test data") fresh_world) as [Hcalls Hok].
  - vm_compute. discriminate.
  - split; [exact Hcalls|]. apply Hok. exists empty_output. reflexivity.
Defined.

Lemma uploadObject_multipart_sequence_witness :
  exists (uploadId : option string) (completed : list CompletedPart),
    calls (snd (uploadObject mockedS3Client s3Bucket "test/large-object" large_body
                  fresh_world)) =
      [CreateMultipartUploadCommand "testBucket" "test/large-object";
       UploadPartCommand "testBucket" "test/large-object" uploadId 1
         (slice_at (payload_of large_body) 104857600 0);
       UploadPartCommand "testBucket" "test/large-object" uploadId 2
         (slice_at (payload_of large_body) 104857600 1);
       CompleteMultipartUploadCommand "testBucket" "test/large-object" uploadId completed] /\
    map PartNumber completed = [1; 2]%N /\
    byteLength (slice_at (payload_of large_body) 104857600 0) = 104857600%N /\
    byteLength (slice_at (payload_of large_body) 104857600 1) = 1%N.
Proof.
  destruct (uploadObject_multipart_sequence mockedS3Client s3Bucket "test/large-object"
              large_body fresh_world) as (uploadId & completed & Hcalls & Hnum & _).
  - vm_compute. reflexivity.
  - vm_compute. reflexivity.
  - exists uploadId, completed. split; [exact Hcalls|]. split; [exact Hnum|].
    split; reflexivity.
Defined.

(** The same run, computed: the helper passes on the upload id and the ETags
    the service returned. *)
Example uploadObject_large_buffer_completion :
  last (calls (snd (uploadObject mockedS3Client s3Bucket "test/large-object" large_body
                      fresh_world)))
       (HeadObjectCommand "" "") =
  CompleteMultipartUploadCommand "testBucket" "test/large-object" (Some "upload-id")
    [{| ETag := Some "etag"; PartNumber := 1 |}; {| ETag := Some "etag"; PartNumber := 2 |}].
Proof. vm_compute. reflexivity. Qed.

(** A payload of exactly the part size goes in one put. *)
Example uploadObject_at_threshold :
  calls (snd (uploadObject mockedS3Client s3Bucket "k"
                (BodyBuffer (Buffer_alloc (100 * 1024 * 1024) "a")) fresh_world)) =
  [PutObjectCommand "testBucket" "k" (Some (Buffer_alloc (100 * 1024 * 1024) "a"))].
Proof. reflexivity. Qed.

End S3BucketProperties.

(** ** Both facades: empty results and wrapped failures *)

Module Facades.

Import SqsQueueProperties S3BucketProperties.

(** *** Empty results *)

(** C7: whenever the service answers the list command with a response whose
    [Contents] is missing or empty, [listObjects] returns the empty sequence,
    and whenever it answers the receive command with a response whose
    [Messages] is missing or empty, [receiveMessage] returns the empty
    sequence; neither fails. *)
Theorem empty_results_are_empty_sequences :
  (forall (Env : Type) (s3 : S3Bucket.S3Client -> S3Bucket.Command -> Env ->
                             Promise S3Bucket.Output * Env)
          (this : S3Bucket.t) (prefix : option string) (maxKeys : option Z)
          (w : World Env S3Bucket.Command) (out : S3Bucket.Output) (env1 : Env),
     s3 (S3Bucket.s3Client this)
        (S3Bucket.ListObjectsV2Command (S3Bucket.bucketName this)
           (default_arg "" prefix) (default_arg 1000%Z maxKeys)) (env w) = (Normal out, env1) ->
     S3Bucket.Contents out = None \/ S3Bucket.Contents out = Some [] ->
     fst (S3Bucket.listObjects s3 this prefix maxKeys w) = Normal []) /\
  (forall (Env : Type) (sqs : SqsQueue.SQSClient -> SqsQueue.Command -> Env ->
                              Promise SqsQueue.Output * Env)
          (this : SqsQueue.t) (maxNumberOfMessages : option Z)
          (w : World Env SqsQueue.Command) (out : SqsQueue.Output) (env1 : Env),
     sqs (SqsQueue.sqsClient this)
         (SqsQueue.ReceiveMessageCommand (SqsQueue.queueUrl this)
            (default_arg 10%Z maxNumberOfMessages) 20) (env w) = (Normal out, env1) ->
     SqsQueue.Messages out = None \/ SqsQueue.Messages out = Some [] ->
     fst (SqsQueue.receiveMessage sqs this maxNumberOfMessages w) = Normal []).
Proof.
  split.
  - intros Env s3 this prefix maxKeys w out env1 Hanswer Hempty.
    rewrite listObjects_run. unfold wrapped_send. rewrite Hanswer. simpl.
    destruct Hempty as [H|H]; rewrite H; reflexivity.
  - intros Env sqs this maxNumberOfMessages w out env1 Hanswer Hempty.
    run_queue. rewrite Hanswer. simpl.
    destruct Hempty as [H|H]; rewrite H; reflexivity.
Qed.

(** The four tests of an empty or missing collection. *)
Lemma empty_results_are_empty_sequences_witness :
  (fst (S3Bucket.listObjects mockedS3Client s3Bucket None None fresh_world) = Normal [] /\
   fst (S3Bucket.listObjects
          (fun _ _ _ => (Normal {| S3Bucket.Contents := Some [];
                                   S3Bucket.ResponseBody := None;
                                   S3Bucket.UploadId := None;
                                   S3Bucket.ResponseETag := None |}, tt))
          s3Bucket None None fresh_world) = Normal []) /\
  (fst (SqsQueue.receiveMessage accepting sqsQueue None fresh_world) = Normal [] /\
   fst (SqsQueue.receiveMessage
          (mockedSqsClient resolves_empty resolves_empty
             (Normal {| SqsQueue.Messages := Some [] |}))
          sqsQueue None fresh_world) = Normal []).
Proof.
  split; split.
  - eapply (proj1 empty_results_are_empty_sequences); [reflexivity | left; reflexivity].
  - eapply (proj1 empty_results_are_empty_sequences); [reflexivity | right; reflexivity].
  - eapply (proj2 empty_results_are_empty_sequences); [reflexivity | left; reflexivity].
  - eapply (proj2 empty_results_are_empty_sequences); [reflexivity | right; reflexivity].
Defined.

(** *** Failures of [getSignedUrl] *)

(** A [getSignedUrl] whose promise is rejected with [e]. *)
Definition rejecting_signer {Env} (e : JsError)
    : S3Bucket.S3Client -> S3Bucket.Command -> Z -> Env -> Completion (Promise string) * Env :=
  fun _ _ _ env => (Normal (Throw e), env).

(** A [getSignedUrl] that throws [e] at the call, as the mock of the tests
    does. *)
Definition throwing_signer {Env} (e : JsError)
    : S3Bucket.S3Client -> S3Bucket.Command -> Z -> Env -> Completion (Promise string) * Env :=
  fun _ _ _ env => (Throw e, env).

(** A rejected promise of [getSignedUrl] passes both presign operations as it
    is: the rejection reason is what the operation rejects with, and nothing is
    logged. *)
Lemma presign_rejection_passes (Env : Type) (this : S3Bucket.t) (key : string)
    (expiresIn : option Z) (e : JsError) (w : World Env S3Bucket.Command) :
  S3Bucket.getPreSignedUrlDownload (rejecting_signer e) this key expiresIn w = (Throw e, w) /\
  S3Bucket.getPreSignedUrlForUpload (rejecting_signer e) this key expiresIn w = (Throw e, w).
Proof.
  rewrite getPreSignedUrlDownload_run, getPreSignedUrlForUpload_run.
  unfold presign_run, rejecting_signer, extended. destruct w; simpl.
  rewrite !app_nil_r. auto.
Qed.

(** C6 fails on the code for the two presign operations: the failure of
    [getSignedUrl] in the tests' own words, arriving as a rejected promise,
    leaves [getPreSignedUrlDownload] and [getPreSignedUrlForUpload] as the raw
    [Error], which is no [S3BucketException], with no log entry; the same
    failure thrown at the call is logged and wrapped. *)
Theorem presign_rejection_is_not_wrapped :
  let failure := Error_ "Error" "Get pre-signed URL failed" in
  S3Bucket.getPreSignedUrlDownload (rejecting_signer failure) s3Bucket "test/object1"
    (Some 900%Z) fresh_world = (Throw failure, fresh_world) /\
  S3Bucket.getPreSignedUrlForUpload (rejecting_signer failure) s3Bucket "test/object1"
    (Some 900%Z) fresh_world = (Throw failure, fresh_world) /\
  instanceof_S3BucketException failure = false /\
  S3Bucket.getPreSignedUrlDownload (throwing_signer failure) s3Bucket "test/object1"
    (Some 900%Z) fresh_world =
    (Throw (S3BucketException "Failed to get pre-signed url for download" (Some failure)),
     {| env := tt; calls := [];
        logged := [entry error
          "Failed to get pre-signed url for download: Error: Get pre-signed URL failed"] |}).
Proof.
  cbv zeta. repeat split.
Qed.

(** *** Failures that are wrapped *)

(** What an operation of the bucket facade ends as when it wraps [e] under the
    message [failed], after the calls [cs]. *)
Definition bucket_failure {A Env} (w : World Env S3Bucket.Command) (env1 : Env)
    (cs : list S3Bucket.Command) (failed : string) (e : JsError)
    : Completion A * World Env S3Bucket.Command :=
  (Throw (S3BucketException failed (Some e)),
   extended w env1 cs [entry error (failed ++ ": " ++ Error_toString e)]).

(** What an operation of the queue facade ends as when it wraps [e] under the
    message [failed], with the log line [logline], after the calls [cs]. *)
Definition queue_failure {A Env} (w : World Env SqsQueue.Command) (env1 : Env)
    (cs : list SqsQueue.Command) (logline failed : string) (e : JsError)
    : Completion A * World Env SqsQueue.Command :=
  (Throw (SqsQueueException failed (Some e)),
   extended w env1 cs [entry error (logline ++ Error_toString e)]).

(** Every operation of the bucket facade that awaits its call inside [try]
    wraps a failure: when the client rejects the command of [listObjects],
    [headObject], [downloadObject] or [deleteObject] with [e], when
    [upload.done()] fails with [e], or when [getSignedUrl] throws [e] at the
    call, the operation logs [e] once at error level and raises a
    [S3BucketException] with the operation's message and [e] as [cause]. *)
Theorem bucket_failures_are_wrapped (Env : Type)
    (s3 : S3Bucket.S3Client -> S3Bucket.Command -> Env -> Promise S3Bucket.Output * Env)
    (this : S3Bucket.t) (e : JsError) (w : World Env S3Bucket.Command) (env1 : Env) :
  let bucket := S3Bucket.bucketName this in
  let rejected command := s3 (S3Bucket.s3Client this) command (env w) = (Throw e, env1) in
  (forall prefix maxKeys,
     let command := S3Bucket.ListObjectsV2Command bucket (default_arg "" prefix)
                      (default_arg 1000%Z maxKeys) in
     rejected command ->
     S3Bucket.listObjects s3 this prefix maxKeys w =
       bucket_failure w env1 [command] "Failed to list objects in S3" e) /\
  (forall key, rejected (S3Bucket.HeadObjectCommand bucket key) ->
     S3Bucket.headObject s3 this key w =
       bucket_failure w env1 [S3Bucket.HeadObjectCommand bucket key]
         "Failed to head object from S3" e) /\
  (forall key, rejected (S3Bucket.GetObjectCommand bucket key) ->
     S3Bucket.downloadObject s3 this key w =
       bucket_failure w env1 [S3Bucket.GetObjectCommand bucket key]
         "Failed to download object from S3" e) /\
  (forall key, rejected (S3Bucket.DeleteObjectCommand bucket key) ->
     S3Bucket.deleteObject s3 this key w =
       bucket_failure w env1 [S3Bucket.DeleteObjectCommand bucket key]
         "Failed to delete object from S3" e) /\
  (forall key body w1,
     S3Bucket.Upload_done s3
       {| S3Bucket.client := S3Bucket.s3Client this; S3Bucket.params_Bucket := bucket;
          S3Bucket.params_Key := key; S3Bucket.params_Body := body;
          S3Bucket.partSize := 1024 * 1024 * 100 |} w = (Throw e, w1) ->
     S3Bucket.uploadObject s3 this key body w =
       bucket_failure w1 (env w1) [] "Failed to upload object to S3" e) /\
  (forall key expiresIn,
     S3Bucket.getPreSignedUrlDownload (throwing_signer e) this key expiresIn w =
       bucket_failure w (env w) [] "Failed to get pre-signed url for download" e /\
     S3Bucket.getPreSignedUrlForUpload (throwing_signer e) this key expiresIn w =
       bucket_failure w (env w) [] "Failed to get pre-signed url for upload" e).
Proof.
  cbv zeta. unfold bucket_failure. repeat split.
  - intros prefix maxKeys H. rewrite listObjects_run. unfold wrapped_send. rewrite H. reflexivity.
  - intros key H. rewrite headObject_run. unfold wrapped_send. rewrite H. reflexivity.
  - intros key H. rewrite downloadObject_run. unfold wrapped_send. rewrite H. reflexivity.
  - intros key H. rewrite deleteObject_run. unfold wrapped_send. rewrite H. reflexivity.
  - intros key body w1 H. rewrite uploadObject_run. cbv zeta. rewrite H. reflexivity.
  - rewrite getPreSignedUrlDownload_run. reflexivity.
  - rewrite getPreSignedUrlForUpload_run. reflexivity.
Qed.

(** The failure tests of the bucket facade: a rejected list command, and a
    rejected put of a small upload. *)
Lemma bucket_failures_are_wrapped_witness :
  let failing : S3Bucket.S3Client -> S3Bucket.Command -> unit ->
                Promise S3Bucket.Output * unit :=
    fun _ _ _ => (Throw (Error_ "Error" "List objects failed"), tt) in
  S3Bucket.listObjects failing s3Bucket (Some "test/") (Some 10%Z) fresh_world =
    (Throw (S3BucketException "Failed to list objects in S3"
              (Some (Error_ "Error" "List objects failed"))),
     {| env := tt;
        calls := [S3Bucket.ListObjectsV2Command "testBucket" "test/" 10];
        logged := [entry error "Failed to list objects in S3: Error: List objects failed"] |}) /\
  fst (S3Bucket.uploadObject failing s3Bucket "test/object1" (S3Bucket.BodyString "test data")
         fresh_world) =
    Throw (S3BucketException "Failed to upload object to S3"
             (Some (Error_ "Error" "List objects failed"))).
Proof.
  cbv zeta. split.
  - apply (proj1 (bucket_failures_are_wrapped _ s3Bucket (Error_ "Error" "List objects failed")
                    fresh_world tt) (Some "test/") (Some 10%Z) eq_refl).
  - erewrite (proj1 (proj2 (proj2 (proj2 (proj2
      (bucket_failures_are_wrapped _ s3Bucket (Error_ "Error" "List objects failed")
         fresh_world tt)))))); reflexivity.
Defined.

(** The three simple operations of the queue facade wrap a failure: when the
    client rejects the command of [sendMessage], [receiveMessage] or
    [deleteMessage] with [e], the operation logs [e] once at error level and
    raises a [SqsQueueException] with the operation's message and [e] as
    [cause]. *)
Theorem queue_failures_are_wrapped (Env : Type)
    (sqs : SqsQueue.SQSClient -> SqsQueue.Command -> Env -> Promise SqsQueue.Output * Env)
    (this : SqsQueue.t) (e : JsError) (w : World Env SqsQueue.Command) (env1 : Env) :
  let url := SqsQueue.queueUrl this in
  let rejected command := sqs (SqsQueue.sqsClient this) command (env w) = (Throw e, env1) in
  (forall messageBody,
     rejected (SqsQueue.SendMessageCommand url (Some messageBody) None) ->
     SqsQueue.sendMessage sqs this messageBody w =
       queue_failure w env1 [SqsQueue.SendMessageCommand url (Some messageBody) None]
         "Failed to send message to SQS queue: " "Failed to send message" e) /\
  (forall maxNumberOfMessages,
     let command := SqsQueue.ReceiveMessageCommand url
                      (default_arg 10%Z maxNumberOfMessages) 20 in
     rejected command ->
     SqsQueue.receiveMessage sqs this maxNumberOfMessages w =
       queue_failure w env1 [command]
         "Failed to receive message from SQS queue: " "Failed to receive message" e) /\
  (forall message,
     rejected (SqsQueue.DeleteMessageCommand url (SqsQueue.ReceiptHandle message)) ->
     SqsQueue.deleteMessage sqs this message w =
       queue_failure w env1
         [SqsQueue.DeleteMessageCommand url (SqsQueue.ReceiptHandle message)]
         "Failed to delete message from SQS queue: " "Failed to delete message" e).
Proof.
  cbv zeta. unfold queue_failure. repeat split.
  - intros messageBody H. run_queue. rewrite H. simpl. tidy_lists. reflexivity.
  - intros maxNumberOfMessages H. run_queue. rewrite H. simpl. tidy_lists. reflexivity.
  - intros message H. rewrite deleteMessage_run. unfold delete_command. rewrite H. reflexivity.
Qed.

(** The three failure tests of the queue facade. *)
Lemma queue_failures_are_wrapped_witness :
  let failure := Error_ "Error" "Send message failed" in
  let failing := mockedSqsClient (Throw failure) (Throw failure) (Throw failure) in
  fst (SqsQueue.sendMessage failing sqsQueue "Hello, SQS!" fresh_world) =
    Throw (SqsQueueException "Failed to send message" (Some failure)) /\
  fst (SqsQueue.receiveMessage failing sqsQueue None fresh_world) =
    Throw (SqsQueueException "Failed to receive message" (Some failure)) /\
  fst (SqsQueue.deleteMessage failing sqsQueue testMessage fresh_world) =
    Throw (SqsQueueException "Failed to delete message" (Some failure)).
Proof.
  cbv zeta.
  pose proof (@queue_failures_are_wrapped unit
                (mockedSqsClient (Throw (Error_ "Error" "Send message failed"))
                   (Throw (Error_ "Error" "Send message failed"))
                   (Throw (Error_ "Error" "Send message failed")))
                sqsQueue (Error_ "Error" "Send message failed") fresh_world tt) as H.
  cbv zeta in H. destruct H as (Hsend & Hreceive & Hdelete).
  split; [|split].
  - rewrite (Hsend "Hello, SQS!" eq_refl). reflexivity.
  - rewrite (Hreceive None eq_refl). reflexivity.
  - rewrite (Hdelete testMessage eq_refl). reflexivity.
Defined.

(** *** Results that are passed on *)

(** A service that accepts every command. *)
Definition accepts_all {Env Cmd Out} (service : Cmd -> Env -> Promise Out * Env) : Prop :=
  forall command env0, exists out env1, service command env0 = (Normal out, env1).

Lemma upload_parts_accepted (Env : Type)
    (s3 : S3Bucket.S3Client -> S3Bucket.Command -> Env -> Promise S3Bucket.Output * Env)
    (u : S3Bucket.Upload) (uploadId : option string) (parts : list S3Bucket.DataPart) :
  accepts_all (s3 (S3Bucket.client u)) ->
  forall w, exists completed w1,
    S3Bucket.upload_parts s3 u uploadId parts w = (Normal completed, w1).
Proof.
  intro Hok. induction parts as [|part rest IH]; intro w; simpl.
  - eexists _, _. reflexivity.
  - run_upload.
    destruct (Hok (S3Bucket.UploadPartCommand (S3Bucket.params_Bucket u)
                     (S3Bucket.params_Key u) uploadId (S3Bucket.partNumber part)
                     (S3Bucket.data part)) (env w)) as (out & env1 & Hsent).
    rewrite Hsent.
    match goal with
    | |- context [S3Bucket.upload_parts s3 u uploadId rest ?w1] =>
        destruct (IH w1) as (completed & w2 & Hrest); rewrite Hrest
    end.
    eexists _, _. reflexivity.
Qed.

(** With a service that accepts every command, [uploadObject] succeeds for
    every body, small or large: the upload helper as modelled always comes to
    its end. *)
Lemma uploadObject_accepted (Env : Type)
    (s3 : S3Bucket.S3Client -> S3Bucket.Command -> Env -> Promise S3Bucket.Output * Env)
    (this : S3Bucket.t) (key : string) (body : S3Bucket.UploadSource)
    (w : World Env S3Bucket.Command) :
  accepts_all (s3 (S3Bucket.s3Client this)) ->
  fst (S3Bucket.uploadObject s3 this key body w) = Normal tt.
Proof.
  intro Hok. rewrite uploadObject_run. cbv zeta.
  unfold S3Bucket.Upload_done. cbv zeta. cbn [S3Bucket.partSize S3Bucket.params_Body
    S3Bucket.params_Bucket S3Bucket.params_Key S3Bucket.client].
  destruct (_ <? _)%N.
  - run_upload.
    destruct (Hok (S3Bucket.CreateMultipartUploadCommand (S3Bucket.bucketName this) key)
                (env w)) as (session & env1 & Hcreated).
    rewrite Hcreated.
    match goal with
    | |- context [S3Bucket.upload_parts s3 ?u ?id ?parts ?w1] =>
        destruct (@upload_parts_accepted Env s3 u id parts Hok w1)
          as (completed & w2 & Hparts); rewrite Hparts
    end.
    match goal with
    | |- context [s3 ?c ?command ?env0] =>
        destruct (Hok command env0) as (out & env2 & Hcompleted); rewrite Hcompleted
    end.
    reflexivity.
  - run_upload.
    match goal with
    | |- context [s3 ?c ?command ?env0] =>
        destruct (Hok command env0) as (out & env2 & Hput); rewrite Hput
    end.
    reflexivity.
Qed.

(** A list or receive call that the service answers gives back the
    collection of the answer, in its order, after one command that carries the
    facade's bucket or queue URL and the arguments, or their defaults ([''] and
    1000 keys; 10 messages), with a wait of 20 seconds on a receive. *)
Theorem collections_are_passed_on :
  (forall (Env : Type) (s3 : S3Bucket.S3Client -> S3Bucket.Command -> Env ->
                             Promise S3Bucket.Output * Env)
          (this : S3Bucket.t) (prefix : option string) (maxKeys : option Z)
          (w : World Env S3Bucket.Command) (out : S3Bucket.Output) (env1 : Env)
          (objects : list S3Bucket._Object),
     let command := S3Bucket.ListObjectsV2Command (S3Bucket.bucketName this)
                      (default_arg "" prefix) (default_arg 1000%Z maxKeys) in
     s3 (S3Bucket.s3Client this) command (env w) = (Normal out, env1) ->
     S3Bucket.Contents out = Some objects ->
     S3Bucket.listObjects s3 this prefix maxKeys w =
       (Normal objects, extended w env1 [command] [])) /\
  (forall (Env : Type) (sqs : SqsQueue.SQSClient -> SqsQueue.Command -> Env ->
                              Promise SqsQueue.Output * Env)
          (this : SqsQueue.t) (maxNumberOfMessages : option Z)
          (w : World Env SqsQueue.Command) (out : SqsQueue.Output) (env1 : Env)
          (messages : list SqsQueue.Message),
     let command := SqsQueue.ReceiveMessageCommand (SqsQueue.queueUrl this)
                      (default_arg 10%Z maxNumberOfMessages) 20 in
     sqs (SqsQueue.sqsClient this) command (env w) = (Normal out, env1) ->
     SqsQueue.Messages out = Some messages ->
     SqsQueue.receiveMessage sqs this maxNumberOfMessages w =
       (Normal messages, extended w env1 [command] [])).
Proof.
  split.
  - intros Env s3 this prefix maxKeys w out env1 objects command Hanswer Hobjects.
    rewrite listObjects_run. unfold wrapped_send. fold command. rewrite Hanswer, Hobjects.
    reflexivity.
  - intros Env sqs this maxNumberOfMessages w out env1 messages command Hanswer Hmessages.
    unfold command in *. run_queue. rewrite Hanswer. simpl. rewrite Hmessages.
    tidy_lists. reflexivity.
Qed.

(** The end-to-end scenario of the spec: [listObjects('a/', 5)] on a bucket
    that answers with the keys [a/1] and [a/2]. *)
Lemma collections_are_passed_on_witness :
  let objects := [{| S3Bucket.Key := Some "a/1"; S3Bucket.Size := Some 100%Z |};
                  {| S3Bucket.Key := Some "a/2"; S3Bucket.Size := Some 200%Z |}] in
  let answering : S3Bucket.S3Client -> S3Bucket.Command -> unit ->
                  Promise S3Bucket.Output * unit :=
    fun _ _ _ => (Normal {| S3Bucket.Contents := Some objects;
                            S3Bucket.ResponseBody := None;
                            S3Bucket.UploadId := None;
                            S3Bucket.ResponseETag := None |}, tt) in
  S3Bucket.listObjects answering s3Bucket (Some "a/") (Some 5%Z) fresh_world =
    (Normal objects,
     {| env := tt;
        calls := [S3Bucket.ListObjectsV2Command "testBucket" "a/" 5];
        logged := [] |}).
Proof.
  cbv zeta.
  eapply (proj1 collections_are_passed_on); reflexivity.
Defined.

(** *** The two steps of a compound operation *)

(** The compound operations are two calls with nothing between or after them:
    when the client rejects the delete, no send is made; when it accepts the
    delete and rejects the send, both calls were made and the operation fails,
    with no further call that would put the message back. *)
Theorem compound_steps_are_not_atomic (Env : Type)
    (sqs : SqsQueue.SQSClient -> SqsQueue.Command -> Env -> Promise SqsQueue.Output * Env)
    (this : SqsQueue.t) (message : SqsQueue.Message) (w : World Env SqsQueue.Command) :
  let delete := delete_command this message in
  let answer := sqs (SqsQueue.sqsClient this) delete (env w) in
  let to_dlq := SqsQueue.sendMessageToDlq sqs this message w in
  let requeued := SqsQueue.rescheduleMessage sqs this message w in
  (forall e, fst answer = Throw e ->
     calls (snd to_dlq) = calls w ++ [delete] /\
     calls (snd requeued) = calls w ++ [delete]) /\
  (forall out e env2,
     fst answer = Normal out ->
     sqs (SqsQueue.sqsClient this) (dlq_command this message) (snd answer) = (Throw e, env2) ->
     calls (snd to_dlq) = calls w ++ [delete; dlq_command this message] /\
     exists raised, fst to_dlq = Throw raised) /\
  (forall out e env2,
     fst answer = Normal out ->
     sqs (SqsQueue.sqsClient this) (requeue_command this message) (snd answer) = (Throw e, env2) ->
     calls (snd requeued) = calls w ++ [delete; requeue_command this message] /\
     exists raised, fst requeued = Throw raised).
Proof.
  cbv zeta. rewrite sendMessageToDlq_run, rescheduleMessage_run. unfold compound_run.
  destruct (sqs _ (delete_command this message) _) as [[out|e] env1]; simpl.
  - split; [discriminate|]. split.
    + intros out' e env2 _ Hsend. rewrite Hsend.
      destruct (instanceof_SqsQueueException e); simpl; eauto.
    + intros out' e env2 _ Hsend. rewrite Hsend.
      destruct (instanceof_SqsQueueException e); simpl; eauto.
  - split; [auto|]. split; discriminate.
Qed.

Lemma compound_steps_are_not_atomic_witness :
  calls (snd (SqsQueue.sendMessageToDlq delete_failing sqsQueue testMessage fresh_world)) =
    [SqsQueue.DeleteMessageCommand queueUrl_test (Some "test-receipt-handle")] /\
  calls (snd (SqsQueue.sendMessageToDlq send_failing sqsQueue testMessage fresh_world)) =
    [SqsQueue.DeleteMessageCommand queueUrl_test (Some "test-receipt-handle");
     SqsQueue.SendMessageCommand deadLetterQueueUrl_test (Some "Hello, SQS!") None].
Proof.
  split.
  - apply (proj1 (compound_steps_are_not_atomic delete_failing sqsQueue testMessage fresh_world)
             (Error_ "Error" "Delete message failed") eq_refl).
  - apply (proj1 (proj2 (compound_steps_are_not_atomic send_failing sqsQueue testMessage
                           fresh_world))
             {| SqsQueue.Messages := None |} (Error_ "Error" "Send message to DLQ failed") tt
             eq_refl eq_refl).
Defined.

End Facades.

(** ** What the facades keep in every run *)

Module Invariants.

Import SqsQueueProperties S3BucketProperties Facades.

(** *** The queue facade: what it throws *)

(** The step of a compound operation on [message], with the second command
    [second], that made it fail with [x]: the delete was rejected with the
    [cause] of [x], or the delete was accepted and the second command was
    rejected with [x] itself or with the [cause] of [x]. *)
Definition failed_step {Env}
    (sqs : SqsQueue.SQSClient -> SqsQueue.Command -> Env -> Promise SqsQueue.Output * Env)
    (this : SqsQueue.t) (w : World Env SqsQueue.Command) (message : SqsQueue.Message)
    (second : SqsQueue.Command) (x : JsError) : Prop :=
  (exists e env1,
     sqs (SqsQueue.sqsClient this) (delete_command this message) (env w) = (Throw e, env1) /\
     error_cause x = Some e) \/
  (exists out env1 e env2,
     sqs (SqsQueue.sqsClient this) (delete_command this message) (env w) = (Normal out, env1) /\
     sqs (SqsQueue.sqsClient this) second env1 = (Throw e, env2) /\
     (x = e \/ error_cause x = Some e)).

(** Whatever one of the five operations of the queue facade throws is a
    [SqsQueueException], and the rejection that made it fail is not lost: for
    the three simple operations the client rejected the one command with the
    [cause] of the thrown error; for the two compound operations the step that
    failed was rejected with the [cause] of the thrown error or, for the second
    step, with the thrown error itself. *)
Theorem queue_throws_only_SqsQueueException (Env : Type)
    (sqs : SqsQueue.SQSClient -> SqsQueue.Command -> Env -> Promise SqsQueue.Output * Env)
    (this : SqsQueue.t) (w : World Env SqsQueue.Command) (x : JsError) :
  let rejected_with_cause command :=
    exists e env1, sqs (SqsQueue.sqsClient this) command (env w) = (Throw e, env1) /\
                   error_cause x = Some e in
  (forall messageBody,
     fst (SqsQueue.sendMessage sqs this messageBody w) = Throw x ->
     instanceof_SqsQueueException x = true /\
     rejected_with_cause
       (SqsQueue.SendMessageCommand (SqsQueue.queueUrl this) (Some messageBody) None)) /\
  (forall maxNumberOfMessages,
     fst (SqsQueue.receiveMessage sqs this maxNumberOfMessages w) = Throw x ->
     instanceof_SqsQueueException x = true /\
     rejected_with_cause
       (SqsQueue.ReceiveMessageCommand (SqsQueue.queueUrl this)
          (default_arg 10%Z maxNumberOfMessages) 20)) /\
  (forall message,
     fst (SqsQueue.deleteMessage sqs this message w) = Throw x ->
     instanceof_SqsQueueException x = true /\
     rejected_with_cause
       (SqsQueue.DeleteMessageCommand (SqsQueue.queueUrl this)
          (SqsQueue.ReceiptHandle message))) /\
  (forall message,
     fst (SqsQueue.sendMessageToDlq sqs this message w) = Throw x ->
     instanceof_SqsQueueException x = true /\
     failed_step sqs this w message (dlq_command this message) x) /\
  (forall message,
     fst (SqsQueue.rescheduleMessage sqs this message w) = Throw x ->
     instanceof_SqsQueueException x = true /\
     failed_step sqs this w message (requeue_command this message) x).
Proof.
  cbv zeta.
  assert (Hcompound : forall message second warning failed wrapped,
            fst (compound_run sqs this message second warning failed wrapped w) = Throw x ->
            instanceof_SqsQueueException x = true /\
            failed_step sqs this w message second x).
  { intros message second warning failed wrapped. unfold compound_run, failed_step.
    destruct (sqs _ (delete_command this message) _) as [[out|e] env1]; simpl.
    - destruct (sqs _ second env1) as [[out2|e2] env2] eqn:Hsecond; simpl; [discriminate|].
      destruct (instanceof_SqsQueueException e2) eqn:Hclass; simpl; intro H;
        injection H as H; rewrite <- H; (split; [assumption || reflexivity|]);
        right; exists out, env1, e2, env2; auto.
    - intro H. inversion H. subst. split; [reflexivity|].
      left. exists e, env1. auto. }
  repeat split.
  - revert H. run_queue. destruct (sqs _ _ _) as [[out|e] env1]; simpl; [discriminate|].
    intro H. inversion H. reflexivity.
  - revert H. run_queue. destruct (sqs _ _ _) as [[out|e] env1]; simpl; [discriminate|].
    intro H. inversion H. exists e, env1. auto.
  - revert H. run_queue. destruct (sqs _ _ _) as [[out|e] env1]; simpl; [discriminate|].
    intro H. inversion H. reflexivity.
  - revert H. run_queue. destruct (sqs _ _ _) as [[out|e] env1]; simpl; [discriminate|].
    intro H. inversion H. exists e, env1. auto.
  - revert H. rewrite deleteMessage_run. unfold delete_command.
    destruct (sqs _ _ _) as [[out|e] env1]; simpl; [discriminate|].
    intro H. inversion H. reflexivity.
  - revert H. rewrite deleteMessage_run. unfold delete_command.
    destruct (sqs _ _ _) as [[out|e] env1]; simpl; [discriminate|].
    intro H. inversion H. exists e, env1. auto.
  - rewrite sendMessageToDlq_run in H. apply (Hcompound _ _ _ _ _ H).
  - rewrite sendMessageToDlq_run in H. apply (Hcompound _ _ _ _ _ H).
  - rewrite rescheduleMessage_run in H. apply (Hcompound _ _ _ _ _ H).
  - rewrite rescheduleMessage_run in H. apply (Hcompound _ _ _ _ _ H).
Qed.

(** A rejected delete inside [sendMessageToDlq], a send rejected with a
    [SqsQueueException] inside [rescheduleMessage], a rejected [sendMessage]. *)
Lemma queue_throws_only_SqsQueueException_witness :
  (instanceof_SqsQueueException delete_failure = true /\
   failed_step delete_failing sqsQueue fresh_world testMessage
     (dlq_command sqsQueue testMessage) delete_failure) /\
  (instanceof_SqsQueueException wrapped_elsewhere = true /\
   failed_step send_failing_wrapped sqsQueue fresh_world testMessage
     (requeue_command sqsQueue testMessage) wrapped_elsewhere) /\
  instanceof_SqsQueueException
    (SqsQueueException "Failed to send message"
       (Some (Error_ "Error" "Send message to DLQ failed"))) = true.
Proof.
  split; [|split].
  - apply (proj1 (proj2 (proj2 (proj2
      (queue_throws_only_SqsQueueException delete_failing sqsQueue fresh_world
         delete_failure)))) testMessage eq_refl).
  - apply (proj2 (proj2 (proj2 (proj2
      (queue_throws_only_SqsQueueException send_failing_wrapped sqsQueue fresh_world
         wrapped_elsewhere)))) testMessage eq_refl).
  - apply (proj1 (queue_throws_only_SqsQueueException send_failing sqsQueue fresh_world
      (SqsQueueException "Failed to send message"
         (Some (Error_ "Error" "Send message to DLQ failed")))) "Hello, SQS!" eq_refl).
Defined.

(** *** The queue facade: what it logs *)

(** The lines a run added to the log [before]. *)
Definition added_lines {Env Cmd A} (before : World Env Cmd)
    (run : Completion A * World Env Cmd) (ls : list LogEntry) : Prop :=
  logged (snd run) = logged before ++ ls.

(** What a simple operation may add to the log: nothing when it succeeds, one
    error-level line when it fails. *)
Definition simple_log {A} (result : Completion A) (ls : list LogEntry) : Prop :=
  match result with
  | Normal _ => ls = []
  | Throw _ => exists text, ls = [entry error text]
  end.

(** What a compound operation with the warning [warning] may add to the log:
    nothing when it succeeds; when it fails, the error line of the failed
    delete followed by the warning, or the warning alone, or one error line. *)
Definition compound_log {A} (warning : string) (result : Completion A)
    (ls : list LogEntry) : Prop :=
  match result with
  | Normal _ => ls = []
  | Throw _ =>
      (exists text, ls = [entry error text; entry warn warning]) \/
      ls = [entry warn warning] \/
      (exists text, ls = [entry error text])
  end.

(** The log is only added to, and it tells success from failure: an operation
    of the queue facade that succeeds logs nothing; a simple operation that
    fails adds exactly one error-level line; a compound operation that fails
    adds one or two lines, at error or warning level, the warning being the
    operation's fixed one and the last line when there is one. *)
Theorem queue_log_discipline (Env : Type)
    (sqs : SqsQueue.SQSClient -> SqsQueue.Command -> Env -> Promise SqsQueue.Output * Env)
    (this : SqsQueue.t) (w : World Env SqsQueue.Command) :
  (forall messageBody,
     let run := SqsQueue.sendMessage sqs this messageBody w in
     exists ls, added_lines w run ls /\ simple_log (fst run) ls) /\
  (forall maxNumberOfMessages,
     let run := SqsQueue.receiveMessage sqs this maxNumberOfMessages w in
     exists ls, added_lines w run ls /\ simple_log (fst run) ls) /\
  (forall message,
     let run := SqsQueue.deleteMessage sqs this message w in
     exists ls, added_lines w run ls /\ simple_log (fst run) ls) /\
  (forall message,
     let run := SqsQueue.sendMessageToDlq sqs this message w in
     exists ls, added_lines w run ls /\ compound_log dlq_warning (fst run) ls) /\
  (forall message,
     let run := SqsQueue.rescheduleMessage sqs this message w in
     exists ls, added_lines w run ls /\ compound_log requeue_warning (fst run) ls).
Proof.
  assert (Hcompound : forall message second warning failed wrapped,
            let run := compound_run sqs this message second warning failed wrapped w in
            exists ls, added_lines w run ls /\ compound_log warning (fst run) ls).
  { intros message second warning failed wrapped. cbv zeta.
    unfold compound_run, added_lines, compound_log.
    destruct (sqs _ (delete_command this message) _) as [[out|e] env1]; simpl.
    - destruct (sqs _ second env1) as [[out2|e2] env2]; simpl.
      + exists []. auto.
      + destruct (instanceof_SqsQueueException e2); simpl; eexists; split;
          try reflexivity; eauto.
    - eexists. split; [reflexivity|]. eauto. }
  unfold added_lines, simple_log. repeat split; cbv zeta.
  - intro messageBody. run_queue.
    destruct (sqs _ _ _) as [[out|e] env1]; simpl; eexists; split;
      try (symmetry; apply app_nil_r); try reflexivity; eauto.
  - intro maxNumberOfMessages. run_queue.
    destruct (sqs _ _ _) as [[out|e] env1]; simpl; eexists; split;
      try (symmetry; apply app_nil_r); try reflexivity; eauto.
  - intro message. rewrite deleteMessage_run.
    destruct (sqs _ _ _) as [[out|e] env1]; simpl; eexists; split;
      try reflexivity; eauto.
  - intro message. rewrite sendMessageToDlq_run. apply Hcompound.
  - intro message. rewrite rescheduleMessage_run. apply Hcompound.
Qed.

(** *** The queue facade: [sendMessage] *)

(** [sendMessage] gives the client exactly one command in every run, a send to
    the primary queue URL with the given body and no [DelaySeconds]; it never
    addresses the dead-letter queue, and it succeeds exactly when the client
    accepts that command. *)
Theorem sendMessage_one_send_to_primary (Env : Type)
    (sqs : SqsQueue.SQSClient -> SqsQueue.Command -> Env -> Promise SqsQueue.Output * Env)
    (this : SqsQueue.t) (messageBody : string) (w : World Env SqsQueue.Command) :
  let command := SqsQueue.SendMessageCommand (SqsQueue.queueUrl this) (Some messageBody) None in
  let answer := sqs (SqsQueue.sqsClient this) command (env w) in
  let run := SqsQueue.sendMessage sqs this messageBody w in
  calls (snd run) = calls w ++ [command] /\
  env (snd run) = snd answer /\
  (fst run = Normal tt <-> exists out, fst answer = Normal out).
Proof.
  cbv zeta. run_queue.
  destruct (sqs _ _ _) as [[out|e] env1]; simpl.
  - repeat split; eauto.
  - repeat split; try discriminate. intros [out H]. discriminate.
Qed.

(** *** The bucket facade: one object *)

(** When the client accepts the command, [headObject] returns the response as
    it is, [downloadObject] returns the [Body] of the response, also when the
    response has none (the result is then [undefined], not a failure), and
    [deleteObject] returns nothing; each has given the client exactly one
    command, on the facade's bucket and the given key, and logged nothing. *)
Theorem object_operations_pass_on (Env : Type)
    (s3 : S3Bucket.S3Client -> S3Bucket.Command -> Env -> Promise S3Bucket.Output * Env)
    (this : S3Bucket.t) (key : string) (w : World Env S3Bucket.Command)
    (out : S3Bucket.Output) (env1 : Env) :
  let bucket := S3Bucket.bucketName this in
  let accepted command := s3 (S3Bucket.s3Client this) command (env w) = (Normal out, env1) in
  (accepted (S3Bucket.HeadObjectCommand bucket key) ->
   S3Bucket.headObject s3 this key w =
     (Normal out, extended w env1 [S3Bucket.HeadObjectCommand bucket key] [])) /\
  (accepted (S3Bucket.GetObjectCommand bucket key) ->
   S3Bucket.downloadObject s3 this key w =
     (Normal (S3Bucket.ResponseBody out),
      extended w env1 [S3Bucket.GetObjectCommand bucket key] [])) /\
  (accepted (S3Bucket.DeleteObjectCommand bucket key) ->
   S3Bucket.deleteObject s3 this key w =
     (Normal tt, extended w env1 [S3Bucket.DeleteObjectCommand bucket key] [])).
Proof.
  cbv zeta. repeat split; intro H.
  - rewrite headObject_run. unfold wrapped_send. rewrite H. reflexivity.
  - rewrite downloadObject_run. unfold wrapped_send. rewrite H. reflexivity.
  - rewrite deleteObject_run. unfold wrapped_send. rewrite H. reflexivity.
Qed.

(** The mock that resolves to [{}]: the head gives [{}], the download gives
    [undefined], the delete gives nothing, after one command each. *)
Lemma object_operations_pass_on_witness :
  S3Bucket.headObject mockedS3Client s3Bucket "test/object1" fresh_world =
    (Normal empty_output,
     {| env := tt; calls := [S3Bucket.HeadObjectCommand "testBucket" "test/object1"];
        logged := [] |}) /\
  S3Bucket.downloadObject mockedS3Client s3Bucket "test/object1" fresh_world =
    (Normal None,
     {| env := tt; calls := [S3Bucket.GetObjectCommand "testBucket" "test/object1"];
        logged := [] |}) /\
  S3Bucket.deleteObject mockedS3Client s3Bucket "test/object1" fresh_world =
    (Normal tt,
     {| env := tt; calls := [S3Bucket.DeleteObjectCommand "testBucket" "test/object1"];
        logged := [] |}).
Proof.
  pose proof (@object_operations_pass_on unit mockedS3Client s3Bucket "test/object1"
                fresh_world empty_output tt) as H.
  cbv zeta in H. destruct H as (Hhead & Hdownload & Hdelete).
  split; [|split].
  - apply Hhead. reflexivity.
  - apply Hdownload. reflexivity.
  - apply Hdelete. reflexivity.
Defined.

(** *** The bucket facade: presigned URLs *)

(** What a presign operation ends as, by what [getSignedUrl] did: the URL of a
    fulfilled promise; the reason of a rejected promise, as it is and with no
    log line; a [S3BucketException] under [failed] and one error-level line for
    a throw at the call. *)
Definition presign_outcome {Env} (w : World Env S3Bucket.Command) (failed : string)
    (did : Completion (Promise string)) (env1 : Env)
    : Completion string * World Env S3Bucket.Command :=
  match did with
  | Normal (Normal url) => (Normal url, {| env := env1; calls := calls w; logged := logged w |})
  | Normal (Throw e) => (Throw e, {| env := env1; calls := calls w; logged := logged w |})
  | Throw e =>
      (Throw (S3BucketException failed (Some e)),
       {| env := env1; calls := calls w;
          logged := logged w ++ [entry error (failed ++ ": " ++ Error_toString e)] |})
  end.

(** The two presign operations never give the client a command: they call
    [getSignedUrl] once, [getPreSignedUrlDownload] with a [GetObjectCommand] and
    [getPreSignedUrlForUpload] with a [PutObjectCommand] without body, on the
    facade's bucket and the given key, with the given expiry or 900 seconds, and
    end as [presign_outcome] says. *)
Theorem presign_operations_sign_only (Env : Type)
    (signer : S3Bucket.S3Client -> S3Bucket.Command -> Z -> Env ->
              Completion (Promise string) * Env)
    (this : S3Bucket.t) (key : string) (expiresIn : option Z)
    (w : World Env S3Bucket.Command) :
  let client := S3Bucket.s3Client this in
  let bucket := S3Bucket.bucketName this in
  let seconds := default_arg 900%Z expiresIn in
  let download := signer client (S3Bucket.GetObjectCommand bucket key) seconds (env w) in
  let upload := signer client (S3Bucket.PutObjectCommand bucket key None) seconds (env w) in
  S3Bucket.getPreSignedUrlDownload signer this key expiresIn w =
    presign_outcome w "Failed to get pre-signed url for download" (fst download) (snd download) /\
  S3Bucket.getPreSignedUrlForUpload signer this key expiresIn w =
    presign_outcome w "Failed to get pre-signed url for upload" (fst upload) (snd upload) /\
  calls (snd (S3Bucket.getPreSignedUrlDownload signer this key expiresIn w)) = calls w /\
  calls (snd (S3Bucket.getPreSignedUrlForUpload signer this key expiresIn w)) = calls w.
Proof.
  cbv zeta. rewrite getPreSignedUrlDownload_run, getPreSignedUrlForUpload_run.
  unfold presign_run, presign_outcome, extended.
  destruct (signer _ (S3Bucket.GetObjectCommand _ _) _ _) as [[[url|e]|e] env1];
    destruct (signer _ (S3Bucket.PutObjectCommand _ _ _) _ _) as [[[url2|e2]|e2] env2];
    simpl; rewrite ?app_nil_r; auto.
Qed.

(** The failure of the tests arriving in the three ways: as a fulfilled
    promise there is a URL, as a rejected promise the raw error, as a throw at
    the call the wrapped error. *)
Example presign_three_ways :
  let failure := Error_ "Error" "Get pre-signed URL failed" in
  let fulfilling : S3Bucket.S3Client -> S3Bucket.Command -> Z -> unit ->
                   Completion (Promise string) * unit :=
    fun _ _ _ _ => (Normal (Normal "https://example.com/presigned-upload-url"), tt) in
  fst (S3Bucket.getPreSignedUrlForUpload fulfilling s3Bucket "test/object1" None fresh_world) =
    Normal "https://example.com/presigned-upload-url" /\
  fst (S3Bucket.getPreSignedUrlForUpload (rejecting_signer failure) s3Bucket "test/object1"
         None fresh_world) = Throw failure /\
  fst (S3Bucket.getPreSignedUrlForUpload (throwing_signer failure) s3Bucket "test/object1"
         None fresh_world) =
    Throw (S3BucketException "Failed to get pre-signed url for upload" (Some failure)).
Proof. cbv zeta. repeat split. Qed.

(** *** The bucket facade: what it throws *)

(** Whatever [listObjects], [headObject], [downloadObject], [deleteObject] or
    [uploadObject] throws is a [S3BucketException] with the operation's fixed
    message whose [cause] is defined: the reason the client rejected the
    operation's one command with, or for [uploadObject] what [upload.done()]
    failed with. *)
Theorem bucket_throws_only_S3BucketException (Env : Type)
    (s3 : S3Bucket.S3Client -> S3Bucket.Command -> Env -> Promise S3Bucket.Output * Env)
    (this : S3Bucket.t) (w : World Env S3Bucket.Command) (x : JsError) :
  let bucket := S3Bucket.bucketName this in
  let wrapped failed command :=
    exists e env1, s3 (S3Bucket.s3Client this) command (env w) = (Throw e, env1) /\
                   x = S3BucketException failed (Some e) in
  (forall prefix maxKeys,
     fst (S3Bucket.listObjects s3 this prefix maxKeys w) = Throw x ->
     wrapped "Failed to list objects in S3"
       (S3Bucket.ListObjectsV2Command bucket (default_arg "" prefix)
          (default_arg 1000%Z maxKeys))) /\
  (forall key,
     fst (S3Bucket.headObject s3 this key w) = Throw x ->
     wrapped "Failed to head object from S3" (S3Bucket.HeadObjectCommand bucket key)) /\
  (forall key,
     fst (S3Bucket.downloadObject s3 this key w) = Throw x ->
     wrapped "Failed to download object from S3" (S3Bucket.GetObjectCommand bucket key)) /\
  (forall key,
     fst (S3Bucket.deleteObject s3 this key w) = Throw x ->
     wrapped "Failed to delete object from S3" (S3Bucket.DeleteObjectCommand bucket key)) /\
  (forall key body,
     fst (S3Bucket.uploadObject s3 this key body w) = Throw x ->
     exists e,
       fst (S3Bucket.Upload_done s3
              {| S3Bucket.client := S3Bucket.s3Client this; S3Bucket.params_Bucket := bucket;
                 S3Bucket.params_Key := key; S3Bucket.params_Body := body;
                 S3Bucket.partSize := 1024 * 1024 * 100 |} w) = Throw e /\
       x = S3BucketException "Failed to upload object to S3" (Some e)).
Proof.
  cbv zeta.
  assert (Hsend : forall A command (result : S3Bucket.Output -> A) failed,
            fst (wrapped_send s3 this command result failed w) = Throw x ->
            exists e env1, s3 (S3Bucket.s3Client this) command (env w) = (Throw e, env1) /\
                           x = S3BucketException failed (Some e)).
  { intros A command result failed. unfold wrapped_send.
    destruct (s3 _ _ _) as [[out|e] env1]; simpl; [discriminate|].
    intro H. injection H as H. exists e, env1. auto. }
  repeat split.
  - intros prefix maxKeys H. rewrite listObjects_run in H. apply (Hsend _ _ _ _ H).
  - intros key H. rewrite headObject_run in H. apply (Hsend _ _ _ _ H).
  - intros key H. rewrite downloadObject_run in H. apply (Hsend _ _ _ _ H).
  - intros key H. rewrite deleteObject_run in H. apply (Hsend _ _ _ _ H).
  - intros key body H. rewrite uploadObject_run in H. cbv zeta in H.
    destruct (S3Bucket.Upload_done _ _ _) as [[[]|e] w1]; simpl in H; [discriminate|].
    injection H as H. exists e. auto.
Qed.

(** The tests of a failing head and of a failing small upload. *)
Lemma bucket_throws_only_S3BucketException_witness :
  let failure := Error_ "Error" "Head object failed" in
  let failing : S3Bucket.S3Client -> S3Bucket.Command -> unit ->
                Promise S3Bucket.Output * unit :=
    fun _ _ _ => (Throw failure, tt) in
  (exists e env1,
     failing (S3Bucket.s3Client s3Bucket) (S3Bucket.HeadObjectCommand "testBucket" "test/object1")
       tt = (Throw e, env1) /\
     S3BucketException "Failed to head object from S3" (Some failure) =
       S3BucketException "Failed to head object from S3" (Some e)) /\
  (exists e,
     fst (S3Bucket.Upload_done failing
            {| S3Bucket.client := S3Bucket.s3Client s3Bucket;
               S3Bucket.params_Bucket := "testBucket";
               S3Bucket.params_Key := "test/object1";
               S3Bucket.params_Body := S3Bucket.BodyString "test data";
               S3Bucket.partSize := 1024 * 1024 * 100 |} fresh_world) = Throw e /\
     S3BucketException "Failed to upload object to S3" (Some failure) =
       S3BucketException "Failed to upload object to S3" (Some e)).
Proof.
  cbv zeta. split.
  - apply (proj1 (proj2
      (@bucket_throws_only_S3BucketException unit
         (fun _ _ _ => (Throw (Error_ "Error" "Head object failed"), tt)) s3Bucket fresh_world
         (S3BucketException "Failed to head object from S3"
            (Some (Error_ "Error" "Head object failed")))))
      "test/object1" eq_refl).
  - apply (proj2 (proj2 (proj2 (proj2
      (@bucket_throws_only_S3BucketException unit
         (fun _ _ _ => (Throw (Error_ "Error" "Head object failed"), tt)) s3Bucket fresh_world
         (S3BucketException "Failed to upload object to S3"
            (Some (Error_ "Error" "Head object failed")))))))
      "test/object1" (S3Bucket.BodyString "test data") eq_refl).
Defined.

(** *** The queue constructor *)







End Invariants.
